(** * augur: the cache store ([augur/common/cache_store.py]) and the sprint
    history aggregation ([augur/fetchers/sprint.py]).

    The development is a shallow embedding.  Python dictionaries are finite
    maps ([gmap]), lists are lists, exceptions are an explicit [Raise]
    result, and the mutable state a method touches ([self.data], the backing
    MongoDB collection, the system clock, the dictionaries passed by
    reference) is threaded through a small state-and-exception monad. *)

From Stdlib Require Import ZArith QArith String Ascii List Lia.
From stdpp Require Import base option gmap strings list sorting pretty.

Local Open Scope string_scope.
Local Open Scope Z_scope.
Local Open Scope list_scope.

(** ** Python results *)

Module Py.

(** The exceptions the modelled code can raise.  [update] and [save] raise
    [ValueError] with two different messages: [ConfigurationError] stands for
    "You cannot update a document in a collection that does not have a unique
    index", [NoDataError] for "No data found to save"/"No data found to
    update".  [DuplicateKeyError] is what the storage backend raises when a
    write violates a unique index. *)
Inductive exn :=
  | ConfigurationError
  | NoDataError
  | KeyError (k : string)
  | TypeError
  | ValueError
  | AttributeError
  | DuplicateKeyError
  | Unmodelled.

Inductive result (A : Type) :=
  | Ok (a : A)
  | Raise (e : exn).
Arguments Ok {A} a.
Arguments Raise {A} e.

Definition is_ok {A} (r : result A) : bool :=
  match r with Ok _ => true | Raise _ => false end.

(** Two calls end alike: both return, or both raise the same exception. *)
Definition same_outcome {A B} (r1 : result A) (r2 : result B) : Prop :=
  match r1, r2 with
  | Ok _, Ok _ => True
  | Raise e1, Raise e2 => e1 = e2
  | _, _ => False
  end.

#[global] Instance result_ret : MRet result := λ A a, Ok a.
#[global] Instance result_bind : MBind result := λ A B f m,
  match m with Ok a => f a | Raise e => Raise e end.

End Py.
Import Py.

(** ** The cache store: [UaModel] *)

Module UaModel.

(** Field values of a cache entry.  [VTime] is a [datetime] (microseconds
    since the epoch); a [timedelta] is a number of microseconds.  Only scalar
    values are modelled: the operations below inspect top-level scalar fields
    (the unique key, ["id"], ["storage_time"], ["storage_type"]) and treat
    everything else as payload.  The [_id] primary key that the server adds to
    a stored document is not modelled. *)
Inductive value :=
  | VNone
  | VInt (z : Z)
  | VStr (s : string)
  | VTime (t : Z).

#[global] Instance value_eq_dec : EqDecision value.
Proof. solve_decision. Defined.

Abbreviation doc := (gmap string value).

(** A query object maps a field name to a literal (equality) or to
    [{"$gte": v}]. *)
Inductive clause :=
  | Is (v : value)
  | Gte (v : value).

#[global] Instance clause_eq_dec : EqDecision clause.
Proof. solve_decision. Defined.

Abbreviation query := (gmap string clause).

(** *** The storage backend (pymongo collection)

    The collaborator is modelled by what the store does to the list of stored
    documents, kept in insertion order. *)

(** BSON comparison order on the modelled values: null, numbers, strings,
    dates. *)
Definition bson_rank (v : value) : Z :=
  match v with VNone => 0 | VInt _ => 1 | VStr _ => 2 | VTime _ => 3 end.

Definition bson_compare (a b : value) : comparison :=
  match a, b with
  | VInt x, VInt y => Z.compare x y
  | VStr x, VStr y => String.compare x y
  | VTime x, VTime y => Z.compare x y
  | _, _ => Z.compare (bson_rank a) (bson_rank b)
  end.

Definition bson_le (a b : value) : Prop := bson_compare a b ≠ Gt.

#[global] Instance bson_le_dec a b : Decision (bson_le a b).
Proof. unfold bson_le. apply _. Defined.

(** A missing field reads as null, both in filters and in indexes. *)
Definition field (d : doc) (f : string) : value := default VNone (d !! f).

(** Range operators only compare values of the same BSON type. *)
Definition clause_holds (c : clause) (w : value) : bool :=
  match c with
  | Is v => bool_decide (w = v)
  | Gte v => bool_decide (bson_rank w = bson_rank v) && bool_decide (bson_le v w)
  end.

Definition matches (q : query) (d : doc) : bool :=
  bool_decide (map_Forall (λ f c, clause_holds c (field d f) = true) q).

(** [find(query)]: the matching documents, in natural order. *)
Definition find (q : query) (l : list doc) : list doc :=
  filter (λ d, matches q d = true) l.

Inductive direction := ASCENDING | DESCENDING.

(** [cursor.sort(order_by, sort_order)]. *)
Definition cursor_sort (order_by : string) (sort_order : direction)
    (l : list doc) : list doc :=
  match sort_order with
  | ASCENDING =>
      merge_sort (λ a b, bson_le (field a order_by) (field b order_by)) l
  | DESCENDING =>
      merge_sort (λ a b, bson_le (field b order_by) (field a order_by)) l
  end.

(** [cursor.limit(n)]; a limit of 0 means no limit. *)
Definition cursor_limit (n : nat) (l : list doc) : list doc :=
  if bool_decide (n = 0%nat) then l else take n l.

(** A write is refused when the collection has a unique index on [f] and
    another stored document has the same value for [f]. *)
Definition violates (index : option string) (d : doc) (others : list doc)
    : bool :=
  match index with
  | None => false
  | Some f => bool_decide (Exists (λ x, field x f = field d f) others)
  end.

Definition insert_one (index : option string) (d : doc) (l : list doc)
    : result (list doc) :=
  if violates index d l then Raise DuplicateKeyError else Ok (l ++ [d]).

(** Replace the first document matching [q] by [d]; insert [d] when none
    matches ([upsert=True]).  This is the effect of both
    [find_one_and_replace(q, d, upsert=True)] and of the legacy
    [update(q, d, upsert=True)] with a replacement document. *)
Definition replace_upsert (index : option string) (q : query) (d : doc)
    (l : list doc) : result (list doc) :=
  match list_find (λ x, matches q x = true) l with
  | Some (i, _) =>
      if violates index d (delete i l) then Raise DuplicateKeyError
      else Ok (<[i := d]> l)
  | None => insert_one index d l
  end.

(** *** Model configuration: what a subclass overrides *)

Record config := {
  get_unique_key : option string;
  get_ttl : option Z;
  get_unique_type : option string;
  clear_before_add : bool
}.

(** Python truthiness of the optional values tested with [if x:]. *)
Definition truthy_str (o : option string) : bool :=
  match o with Some s => bool_decide (s ≠ "") | None => false end.

Definition truthy_num (o : option Z) : bool :=
  match o with Some n => bool_decide (n ≠ 0) | None => false end.

(** [__init__] creates the unique index when [get_unique_key()] is truthy. *)
Definition unique_index (cfg : config) : option string :=
  if truthy_str (get_unique_key cfg) then get_unique_key cfg else None.

(** *** State *)

Definition loc := nat.

(** [data] is [self.data]; [docs] the contents of [get_collection()];
    [clock] counts the readings of [datetime.utcnow()] made so far; [heap]
    holds the dictionaries that callers pass to [load] by reference. *)
Record world := {
  data : list doc;
  docs : list doc;
  clock : nat;
  heap : gmap loc query
}.

Definition action (A : Type) : Type := world → result A * world.

#[global] Instance action_ret : MRet action := λ A a w, (Ok a, w).
#[global] Instance action_bind : MBind action := λ A B f m w,
  match m w with
  | (Ok a, w') => f a w'
  | (Raise e, w') => (Raise e, w')
  end.

Definition raise {A} (e : exn) : action A := λ w, (Raise e, w).

Definition when (b : bool) (m : action ()) : action () :=
  if b then m else mret ().

Fixpoint for_each {A} (l : list A) (body : A → action ()) : action () :=
  match l with
  | [] => mret ()
  | x :: l' => body x ;; for_each l' body
  end.

Definition get_data : action (list doc) := λ w, (Ok (data w), w).

Definition set_data (l : list doc) : action () := λ w,
  (Ok (), {| data := l; docs := docs w; clock := clock w; heap := heap w |}).

Definition set_docs (l : list doc) : action () := λ w,
  (Ok (), {| data := data w; docs := l; clock := clock w; heap := heap w |}).

(** Lift a backend write to the collection held in the state. *)
Definition on_collection (op : list doc → result (list doc)) : action () :=
  λ w, match op (docs w) with
       | Ok l => set_docs l w
       | Raise e => (Raise e, w)
       end.

(** The entries handed to [save]/[update]/[add_data]: a list or a single
    dictionary. *)
Inductive batch :=
  | Many (l : list doc)
  | One (d : doc).

Definition truthy_batch (o : option batch) : bool :=
  match o with
  | None => false
  | Some (Many l) => bool_decide (l ≠ [])
  | Some (One d) => bool_decide (d ≠ ∅)
  end.

Definition getitem (d : doc) (k : string) : action value :=
  match d !! k with
  | Some v => mret v
  | None => raise (KeyError k)
  end.

Section methods.
(** [augur.common.serializers.to_mongo] is not part of the sources at hand
    and is taken as a parameter; [utcnow n] is the value returned by the
    [n]-th reading of [datetime.datetime.utcnow()]. *)
Context (to_mongo : doc → doc) (utcnow : nat → Z).
Context (cfg : config).

Definition empty : action () := set_docs [].

Definition clear_data : action () := set_data [].

Definition has_data : action bool := λ w,
  (Ok (bool_decide (0 < length (docs w))%nat), w).

Definition add_data (b : batch) : action () :=
  d ← get_data;
  match b with
  | Many l => set_data (d ++ l)
  | One x => set_data (d ++ [x])
  end.

Definition storage_type : value :=
  match get_unique_type cfg with Some s => VStr s | None => VNone end.

Definition stamp (t : Z) (d : doc) : doc :=
  <["storage_type" := storage_type]> (<["storage_time" := VTime t]> d).

(** The loop of [decorate_data]: one clock reading per entry. *)
Fixpoint stamp_all (n : nat) (l : list doc) : list doc :=
  match l with
  | [] => []
  | d :: l' => stamp (utcnow n) d :: stamp_all (S n) l'
  end.

Definition decorate_data : action () := λ w,
  (Ok (), {| data := stamp_all (clock w) (data w);
             docs := docs w;
             clock := (clock w + length (data w))%nat;
             heap := heap w |}).

Definition stage (data_arg : option batch) : action () :=
  match data_arg with
  | Some b => when (truthy_batch data_arg) (clear_data ;; add_data b)
  | None => mret ()
  end.

Definition find_one_and_replace (q : query) (d : doc) : action () :=
  on_collection (replace_upsert (unique_index cfg) q d).

Definition collection_update (q : query) (d : doc) : action () :=
  on_collection (replace_upsert (unique_index cfg) q d).

(** [insert_many] is ordered: it stops at the first refused document and
    keeps the ones already written.  The [_id] it writes into the
    dictionaries it is handed is not modelled: what is stated of it
    concerns dictionaries that are inserted once, not a dictionary that is
    handed to it again or one that was loaded from the collection. *)
Definition insert_many (l : list doc) : action () :=
  for_each l (λ d, on_collection (insert_one (unique_index cfg) d)).

Definition update (data_arg : option batch) : action () :=
  match get_unique_key cfg with
  | None => raise ConfigurationError
  | Some unique_key =>
      stage data_arg ;;
      d ← get_data;
      if bool_decide (d = []) then raise NoDataError else
      decorate_data ;;
      d ← get_data;
      for_each d (λ d,
        k ← getitem d unique_key;
        collection_update {[ unique_key := Is k ]} (to_mongo d))
  end.

Definition save (data_arg : option batch) : action bool :=
  stage data_arg ;;
  d ← get_data;
  if bool_decide (d = []) then raise NoDataError else
  decorate_data ;;
  when (clear_before_add cfg) empty ;;
  if truthy_str (get_unique_key cfg) then
    let unique_key := default "" (get_unique_key cfg) in
    d ← get_data;
    for_each d (λ d,
      k ← getitem d unique_key;
      find_one_and_replace {[ "id" := Is k ]} (to_mongo d)) ;;
    mret true
  else
    d ← get_data;
    insert_many (to_mongo <$> d) ;;
    mret true.

(** [if not query_object: query_object = {}]: the local name is rebound to
    a fresh dictionary when the caller passed [None] or an empty one;
    otherwise it keeps referring to the caller's object. *)
Definition bind_query_object (query_object : option loc) : action loc := λ w,
  let fresh_dict :=
    let l := fresh (dom (heap w)) in
    (Ok l, {| data := data w; docs := docs w; clock := clock w;
              heap := <[l := ∅]> (heap w) |}) in
  match query_object with
  | None => fresh_dict
  | Some l =>
      if bool_decide (default ∅ (heap w !! l) = ∅) then fresh_dict
      else (Ok l, w)
  end.

Definition deref (l : loc) : action query := λ w,
  (Ok (default ∅ (heap w !! l)), w).

(** [query_object.update({f: c})], in place. *)
Definition dict_update (l : loc) (f : string) (c : clause) : action () := λ w,
  (Ok (), {| data := data w; docs := docs w; clock := clock w;
             heap := <[l := <[f := c]> (default ∅ (heap w !! l))]> (heap w) |}).

Definition read_clock : action Z := λ w,
  (Ok (utcnow (clock w)),
   {| data := data w; docs := docs w; clock := S (clock w);
      heap := heap w |}).

Definition get_docs : action (list doc) := λ w, (Ok (docs w), w).

Definition load (query_object : option loc) (limit : option Z)
    (order_by : option string) (sort_order : direction)
    (override_ttl : option Z) : action (list doc) :=
  clear_data ;;
  let ttl :=
    if negb (truthy_num override_ttl) then get_ttl cfg else override_ttl in
  query_object ← bind_query_object query_object;
  q ← deref query_object;
  when (truthy_num ttl && bool_decide (q !! "storage_time" = None))
    (now ← read_clock;
     dict_update query_object "storage_time"
       (Gte (VTime (now - default 0 ttl)))) ;;
  when (truthy_str (get_unique_type cfg))
    (dict_update query_object "storage_type" (Is storage_type)) ;;
  q ← deref query_object;
  stored ← get_docs;
  let cursor := find q stored in
  let cursor :=
    if truthy_str order_by
    then cursor_sort (default "" order_by) sort_order cursor
    else cursor in
  let cursor := if truthy_num limit then cursor_limit 1 cursor else cursor in
  d ← get_data;
  set_data (d ++ cursor) ;;
  get_data.

End methods.

(** *** Notions used to state the properties *)

(** The entries of a batch, as the list [add_data] stages. *)
Definition entries (b : batch) : list doc :=
  match b with Many l => l | One d => [d] end.

(** The same state, [n] clock readings later. *)
Definition later (n : nat) (w : world) : world :=
  {| data := data w; docs := docs w; clock := (clock w + n)%nat;
     heap := heap w |}.

(** The dictionary the caller handed to [load]. *)
Definition caller_query (w : world) (query_object : option loc) : query :=
  match query_object with
  | Some l => default ∅ (heap w !! l)
  | None => ∅
  end.

(** The TTL a [load] works with. *)
Definition ttl_used (cfg : config) (override_ttl : option Z) : option Z :=
  if negb (truthy_num override_ttl) then get_ttl cfg else override_ttl.

(** The query [load] hands to [find], from the caller's query [q]. *)
Definition effective_query (cfg : config) (now : Z)
    (override_ttl : option Z) (q : query) : query :=
  let ttl := ttl_used cfg override_ttl in
  let q :=
    if truthy_num ttl && bool_decide (q !! "storage_time" = None)
    then <["storage_time" := Gte (VTime (now - default 0 ttl))]> q
    else q in
  if truthy_str (get_unique_type cfg)
  then <["storage_type" := Is (storage_type cfg)]> q
  else q.

(** What [load] makes of the documents [find] yields: sorted when an order
    is given, cut to one document when a limit is given. *)
Definition cursor_result (limit : option Z) (order_by : option string)
    (sort_order : direction) (found : list doc) : list doc :=
  let cursor :=
    if truthy_str order_by
    then cursor_sort (default "" order_by) sort_order found
    else found in
  if truthy_num limit then cursor_limit 1 cursor else cursor.

(** Upsert keyed on the value of field [f], as a function on the list of
    stored documents: replace the first document with the same value for
    [f], append when there is none. *)
Fixpoint upsert (f : string) (d : doc) (l : list doc) : list doc :=
  match l with
  | [] => [d]
  | x :: l' =>
      if bool_decide (field x f = field d f) then d :: l'
      else x :: upsert f d l'
  end.

Definition upserts (f : string) (ds : list doc) (l : list doc) : list doc :=
  foldl (λ l d, upsert f d l) l ds.

(** The unique index on [f] holds of a list of stored documents. *)
Definition index_ok (index : option string) (l : list doc) : Prop :=
  match index with
  | Some f => NoDup ((λ x, field x f) <$> l)
  | None => True
  end.

End UaModel.

(** ** The sprint history aggregation: [UaSprintDataFetcher] *)

Module UaSprintDataFetcher.

(** Python floats are kept abstract: the aggregation only converts, adds and
    divides them, and nothing below depends on how these operations round. *)
Class PyFloat (F : Type) := {
  float_of_Z : Z → F;
  float_of_str : string → option F;
  str_of_float : F → string;
  fadd : F → F → F;
  fdiv : F → F → F;
  float_is_zero : F → bool
}.

Section aggregation.
Context {F : Type} `{PyFloat F}.

(** The JSON-like values the sprint data is made of. *)
#[warnings="-register-all"]
Inductive jval :=
  | JNull
  | JInt (z : Z)
  | JFloat (x : F)
  | JStr (s : string)
  | JList (l : list jval)
  | JDict (d : gmap string jval).

Definition truthy (v : jval) : bool :=
  match v with
  | JNull => false
  | JInt z => bool_decide (z ≠ 0)
  | JFloat x => negb (float_is_zero x)
  | JStr s => bool_decide (s ≠ "")
  | JList l => bool_decide (l ≠ [])
  | JDict d => bool_decide (d ≠ ∅)
  end.

(** [v[k]] for a string key [k]. *)
Definition getitem (v : jval) (k : string) : result jval :=
  match v with
  | JDict d =>
      match d !! k with Some x => Ok x | None => Raise (KeyError k) end
  | _ => Raise TypeError
  end.

(** [v[k] = x] for a string key [k]. *)
Definition setitem (v : jval) (k : string) (x : jval) : result jval :=
  match v with
  | JDict d => Ok (JDict (<[k := x]> d))
  | _ => Raise TypeError
  end.

(** [float(v)]. *)
Definition py_float (v : jval) : result F :=
  match v with
  | JInt z => Ok (float_of_Z z)
  | JFloat x => Ok x
  | JStr s =>
      match float_of_str s with Some x => Ok x | None => Raise ValueError end
  | _ => Raise TypeError
  end.

(** [len(v)]. *)
Definition py_len (v : jval) : result nat :=
  match v with
  | JList l => Ok (length l)
  | JDict d => Ok (size d)
  | JStr s => Ok (String.length s)
  | _ => Raise TypeError
  end.

(** The items a [for] loop over [v] visits: the elements of a list, the
    keys of a dictionary, the characters of a string. *)
Definition py_iter (v : jval) : result (list jval) :=
  match v with
  | JList l => Ok l
  | JDict d => Ok ((λ kv, JStr kv.1) <$> map_to_list d)
  | JStr s => Ok ((λ c, JStr (String c "")) <$> list_ascii_of_string s)
  | _ => Raise TypeError
  end.

(** Modelled from the spec: [augur.common.deep_get] is not part of the
    sources at hand.  It follows a path of keys through nested
    dictionaries and yields [None] as soon as the path cannot be followed
    (the spec treats a null and an absent field alike). *)
Fixpoint deep_get (v : jval) (keys : list string) : jval :=
  match keys with
  | [] => v
  | k :: keys' =>
      match v with
      | JDict d => deep_get (default JNull (d !! k)) keys'
      | _ => deep_get JNull keys'
      end
  end.

(** Dictionary keys of the aggregate.  Sprint ids are integers; strings
    and [None] are the other hashable kinds modelled.  A list or a
    dictionary is unhashable; a float id lies outside the modelled
    fragment. *)
Inductive pykey :=
  | KNone
  | KInt (z : Z)
  | KStr (s : string).

#[global] Instance pykey_eq_dec : EqDecision pykey.
Proof. solve_decision. Defined.

#[global] Instance pykey_countable : Countable pykey.
Proof.
  refine (inj_countable'
    (λ k, match k with
          | KNone => inl ()
          | KInt z => inr (inl z)
          | KStr s => inr (inr s)
          end)
    (λ x, match x with
          | inl _ => KNone
          | inr (inl z) => KInt z
          | inr (inr s) => KStr s
          end) _).
  by intros [].
Defined.

Definition as_key (v : jval) : result pykey :=
  match v with
  | JNull => Ok KNone
  | JInt z => Ok (KInt z)
  | JStr s => Ok (KStr s)
  | JFloat _ => Raise Unmodelled
  | JList _ | JDict _ => Raise TypeError
  end.

Record triple := {
  actual : F;
  running_avg : F;
  running_sum : F
}.

(** What [aggregate_sprint_data[_id]] holds under a key: the sprint's
    metadata under ["info"], a triple under each tracked field. *)
Inductive slot :=
  | Info (v : jval)
  | Stats (t : triple).

(** What [aggregate_sprint_data] holds under a key: the list of ids under
    ["asc_order"], a dictionary under each sprint id. *)
Inductive entry :=
  | AscOrder (ids : list jval)
  | PerSprint (e : gmap string slot).

Local Abbreviation aggregate := (gmap pykey entry).

Definition point_keys : list string :=
  [ "completedIssuesEstimateSum";
    "issuesNotCompletedEstimateSum";
    "puntedIssuesEstimateSum";
    "pointsAddedDuringSprintSum" ].

Definition issue_keys : list string :=
  [ "completedIssues";
    "issuesNotCompletedInCurrentSprint";
    "puntedIssues";
    "issueKeysAddedDuringSprint" ].

(** [aggregate_sprint_data['asc_order'].append(_id)] *)
Definition append_asc_order (agg : aggregate) (_id : jval)
    : result aggregate :=
  match agg !! KStr "asc_order" with
  | Some (AscOrder ids) =>
      Ok (<[KStr "asc_order" := AscOrder (ids ++ [_id])]> agg)
  | Some (PerSprint _) => Raise AttributeError
  | None => Raise (KeyError "asc_order")
  end.

(** [if _id not in aggregate_sprint_data: aggregate_sprint_data[_id] =
    {"info": one_sprint['sprint']}] *)
Definition create_storage (agg : aggregate) (_id : jval) (sprint : jval)
    : result aggregate :=
  k ← as_key _id;
  match agg !! k with
  | None => Ok (<[k := PerSprint {[ "info" := Info sprint ]}]> agg)
  | Some _ => Ok agg
  end.

(** The loop over [issueKeysAddedDuringSprint] that sums the story points
    ([customfield_10002]) of the issues added during the sprint. *)
Fixpoint sum_added_points (acc : F) (issues : list jval) : result F :=
  match issues with
  | [] => Ok acc
  | issue_key :: rest =>
      let p := deep_get issue_key ["fields"; "customfield_10002"] in
      x ← py_float (if truthy p then p else JFloat (float_of_Z 0));
      sum_added_points (fadd acc x) rest
  end.

(** [aggregate_sprint_data[last_sprint_id][key]['running_sum']] *)
Definition previous_running_sum (agg : aggregate) (last_sprint_id : jval)
    (key : string) : result F :=
  k ← as_key last_sprint_id;
  match agg !! k with
  | None => Raise (KeyError "last_sprint_id")
  | Some (AscOrder _) => Raise TypeError
  | Some (PerSprint e) =>
      match e !! key with
      | None => Raise (KeyError key)
      | Some (Stats t) => Ok (running_sum t)
      | Some (Info v) =>
          r ← getitem v "running_sum";
          match r with
          | JInt z => Ok (float_of_Z z)
          | JFloat x => Ok x
          | _ => Raise TypeError
          end
      end
  end.

(** [aggregate_sprint_data[_id][key] = {...}] *)
Definition store_stats (agg : aggregate) (_id : jval) (key : string)
    (t : triple) : result aggregate :=
  k ← as_key _id;
  match agg !! k with
  | None => Raise (KeyError "_id")
  | Some (AscOrder _) => Raise TypeError
  | Some (PerSprint e) => Ok (<[k := PerSprint (<[key := Stats t]> e)]> agg)
  end.

(** The [if idx == 0 ... else ...] block shared by the two loops, followed
    by the assignment of the triple. *)
Definition accumulate (idx : nat) (agg : aggregate)
    (last_sprint_id _id : jval) (key : string) (current : F)
    : result aggregate :=
  if bool_decide (idx = 0%nat) then
    store_stats agg _id key
      {| actual := current; running_avg := current;
         running_sum := current |}
  else
    prev ← previous_running_sum agg last_sprint_id key;
    let running_sum := fadd prev current in
    let count := Z.of_nat idx + 1 in
    let average := fdiv running_sum (float_of_Z count) in
    store_stats agg _id key
      {| actual := current; running_avg := average;
         running_sum := running_sum |}.

Definition is_null_text (v : jval) : bool :=
  match v with JStr s => bool_decide (s = "null") | _ => false end.

(** [float(orig_current if orig_current != 'null' else 0)] for
    [orig_current = one_sprint['contents'][key]['text']]. *)
Definition point_value (one_sprint : jval) (key : string) : result F :=
  contents ← getitem one_sprint "contents";
  estimate ← getitem contents key;
  orig_current ← getitem estimate "text";
  py_float (if is_null_text orig_current then JInt 0 else orig_current).

(** [float(len(one_sprint['contents'][key]))] *)
Definition issue_count (one_sprint : jval) (key : string) : result F :=
  contents ← getitem one_sprint "contents";
  issues ← getitem contents key;
  n ← py_len issues;
  Ok (float_of_Z (Z.of_nat n)).

Fixpoint aggregate_keys (read : jval → string → result F)
    (keys : list string) (idx : nat) (one_sprint : jval) (agg : aggregate)
    (last_sprint_id _id : jval) : result aggregate :=
  match keys with
  | [] => Ok agg
  | key :: keys' =>
      current ← read one_sprint key;
      agg ← accumulate idx agg last_sprint_id _id key current;
      aggregate_keys read keys' idx one_sprint agg last_sprint_id _id
  end.

(** The computation of [pointsAddedDuringSprintSum] and its assignment
    into [one_sprint['contents']]. *)
Definition add_points_added (one_sprint : jval) : result jval :=
  contents ← getitem one_sprint "contents";
  added ← getitem contents "issueKeysAddedDuringSprint";
  issues ← py_iter added;
  added_during_sprint_points ← sum_added_points (float_of_Z 0) issues;
  contents ← getitem one_sprint "contents";
  contents ← setitem contents "pointsAddedDuringSprintSum"
    (JDict {[ "text" := JStr (str_of_float added_during_sprint_points);
              "value" := JFloat added_during_sprint_points ]});
  setitem one_sprint "contents" contents.

(** One iteration of the loop over [enumerate(asc_sprint_data)]; yields
    the aggregate and the new value of [_id]. *)
Definition iteration (idx : nat) (one_sprint : jval) (agg : aggregate)
    (_id : jval) : result (aggregate * jval) :=
  let last_sprint_id := _id in
  sprint ← getitem one_sprint "sprint";
  _id ← getitem sprint "id";
  agg ← append_asc_order agg _id;
  agg ← create_storage agg _id sprint;
  one_sprint ← add_points_added one_sprint;
  agg ← aggregate_keys point_value point_keys idx one_sprint agg
           last_sprint_id _id;
  agg ← aggregate_keys issue_count issue_keys idx one_sprint agg
           last_sprint_id _id;
  Ok (agg, _id).

Fixpoint sprint_loop (idx : nat) (asc_sprint_data : list jval)
    (agg : aggregate) (_id : jval) : result aggregate :=
  match asc_sprint_data with
  | [] => Ok agg
  | one_sprint :: rest =>
      r ← iteration idx one_sprint agg _id;
      sprint_loop (S idx) rest r.1 r.2
  end.

Definition _aggregate_sprint_history_data (sprint_data : list jval)
    : result aggregate :=
  let asc_sprint_data := reverse sprint_data in
  let aggregate_sprint_data : aggregate :=
    {[ KStr "asc_order" := AscOrder [] ]} in
  sprint_loop 0 asc_sprint_data aggregate_sprint_data (JInt 0).

(** *** Notions used to state the properties *)

Definition tracked_keys : list string := point_keys ++ issue_keys.

(** The dictionary key under which a snapshot is aggregated. *)
Definition sprint_key (one_sprint : jval) : result pykey :=
  sprint ← getitem one_sprint "sprint";
  _id ← getitem sprint "id";
  as_key _id.

(** The value the aggregation reads for a tracked field of a snapshot. *)
Definition tracked_value (one_sprint : jval) (key : string) : result F :=
  one_sprint ← add_points_added one_sprint;
  if bool_decide (key ∈ point_keys) then point_value one_sprint key
  else issue_count one_sprint key.

(** The sum of the values at indices [0..i], added up from the left. *)
Fixpoint total (v : nat → F) (i : nat) : F :=
  match i with
  | O => v O
  | S j => fadd (total v j) (v (S j))
  end.

(** The triple the aggregation computes at index [i]. *)
Definition stats_at (v : nat → F) (i : nat) : triple :=
  {| actual := v i;
     running_avg :=
       if bool_decide (i = 0%nat) then v i
       else fdiv (total v i) (float_of_Z (Z.of_nat i + 1));
     running_sum := total v i |}.

(** What holds of the aggregate and of [_id] after [n] iterations, for
    snapshots with ids [ids] and tracked values [vals]. *)
Definition loop_invariant (ids : list Z) (vals : nat → string → F)
    (n : nat) (agg : aggregate) (_id : jval) : Prop :=
  agg !! KStr "asc_order" = Some (AscOrder (JInt <$> take n ids)) ∧
  (∀ k x, agg !! k = Some x → k = KStr "asc_order" ∨ ∃ m, x = PerSprint m) ∧
  (∀ i id key,
     (i < n)%nat → ids !! i = Some id → key ∈ tracked_keys →
     ∃ e, agg !! KInt id = Some (PerSprint e) ∧
          e !! key = Some (Stats (stats_at (λ j, vals j key) i))) ∧
  ∃ id, _id = JInt id ∧ (n ≠ 0%nat → ids !! (n - 1)%nat = Some id).

(** The per-sprint dictionary after the triples of the keys [ks] have been
    assigned at index [n]. *)
Definition write_all (vals : nat → string → F) (n : nat) (ks : list string)
    (e : gmap string slot) : gmap string slot :=
  foldl (λ e key, <[key := Stats (stats_at (λ j, vals j key) n)]> e) e ks.

End aggregation.

End UaSprintDataFetcher.

(** ** Exact rational arithmetic as an instance of [PyFloat]

    Used to run the aggregation on concrete inputs.  Strings are read and
    printed in plain decimal notation. *)

Module QFloat.

Definition digit_of (c : ascii) : option Z :=
  let n := Z.of_N (N_of_ascii c) - 48 in
  if bool_decide (0 ≤ n ≤ 9) then Some n else None.

Fixpoint digits (acc : Z) (s : string) : option Z :=
  match s with
  | EmptyString => Some acc
  | String c s' => d ← digit_of c; digits (10 * acc + d) s'
  end.

Fixpoint split_dot (s : string) : string * option string :=
  match s with
  | EmptyString => (EmptyString, None)
  | String c s' =>
      if bool_decide (c = "."%char) then (EmptyString, Some s')
      else let r := split_dot s' in (String c r.1, r.2)
  end.

Definition unsigned_of_str (s : string) : option Q :=
  let r := split_dot s in
  let frac := default EmptyString r.2 in
  if bool_decide (r.1 = EmptyString) then None else
  i ← digits 0 r.1;
  f ← digits 0 frac;
  let scale := 10 ^ Z.of_nat (String.length frac) in
  Some (Qred (Qmake (i * scale + f) (Z.to_pos scale))).

Definition of_str (s : string) : option Q :=
  match s with
  | String "-"%char s' => Qopp <$> unsigned_of_str s'
  | _ => unsigned_of_str s
  end.

Fixpoint fraction_digits (fuel : nat) (r d : Z) : string :=
  match fuel with
  | O => EmptyString
  | S fuel' =>
      if bool_decide (r = 0) then EmptyString
      else String.append (pretty (10 * r / d))
             (fraction_digits fuel' (10 * r mod d) d)
  end.

Definition unsigned_to_str (n d : Z) : string :=
  let frac := fraction_digits 12 (n mod d) d in
  String.append (pretty (n / d))
    (String.append "."
       (if bool_decide (frac = EmptyString) then "0" else frac)).

Definition to_str (q : Q) : string :=
  let n := Qnum q in
  let d := Z.pos (Qden q) in
  if bool_decide (n < 0) then String.append "-" (unsigned_to_str (- n) d)
  else unsigned_to_str n d.

#[global] Instance Q_float : UaSprintDataFetcher.PyFloat Q := {|
  UaSprintDataFetcher.float_of_Z := inject_Z;
  UaSprintDataFetcher.float_of_str := of_str;
  UaSprintDataFetcher.str_of_float := to_str;
  UaSprintDataFetcher.fadd := Qplus;
  UaSprintDataFetcher.fdiv := Qdiv;
  UaSprintDataFetcher.float_is_zero := λ q, bool_decide (Qnum q = 0)
|}.

End QFloat.

(** ** Concrete collections and entries *)

Module Examples.
Import UaModel.

(** The team sprint collection: keyed on [sprint_id], here with a TTL of two
    hours (in seconds). *)
Definition sprints : config :=
  {| get_unique_key := Some "sprint_id"; get_ttl := Some 7200;
     get_unique_type := None; clear_before_add := false |}.

(** The pull-request collection, keyed on [id]; the second variant empties
    the collection before each save. *)
Definition pulls : config :=
  {| get_unique_key := Some "id"; get_ttl := None;
     get_unique_type := None; clear_before_add := false |}.

Definition pulls_latest : config :=
  {| get_unique_key := Some "id"; get_ttl := None;
     get_unique_type := None; clear_before_add := true |}.

(** A clock that advances by one hour at every reading. *)
Definition hourly (n : nat) : Z := 3600 * Z.of_nat n.

Definition fresh_world : world :=
  {| data := []; docs := []; clock := 0; heap := ∅ |}.

Definition sprint7 (points : Z) : doc :=
  {[ "sprint_id" := VInt 7; "points" := VInt points ]}.

Definition pull (id n : Z) : doc :=
  {[ "id" := VInt id; "commits" := VInt n ]}.

(** The state after [update([{sprint_id: 7, points: 5}])] on an empty
    collection. *)
Definition one_sprint_stored : world :=
  (update id hourly sprints (Some (Many [sprint7 5])) fresh_world).2.

(** The same collection two hours later, when the clock reads three hours. *)
Definition three_hours_in : world := later 2 one_sprint_stored.

(** A caller that asks for sprint 7 with a dictionary of its own. *)
Definition asking_sprint7 : query := {[ "sprint_id" := Is (VInt 7) ]}.

Definition with_query : world :=
  {| data := []; docs := docs one_sprint_stored; clock := 1;
     heap := {[ 0%nat := asking_sprint7 ]} |}.

(** A pull-request collection that already holds an entry. *)
Definition one_pull_stored : world :=
  (save id hourly pulls_latest (Some (Many [pull 9 9])) fresh_world).2.

End Examples.

Module SprintExamples.
Import UaSprintDataFetcher QFloat.

Definition estimate (text : string) : jval (F:=Q) :=
  JDict {[ "text" := JStr text ]}.

(** The contents of a sprint, here without issues. *)
Definition snapshot_contents (completed not_completed punted : string)
    : jval (F:=Q) :=
  JDict {[
    "completedIssuesEstimateSum" := estimate completed;
    "issuesNotCompletedEstimateSum" := estimate not_completed;
    "puntedIssuesEstimateSum" := estimate punted;
    "completedIssues" := JList [];
    "issuesNotCompletedInCurrentSprint" := JList [];
    "puntedIssues" := JList [];
    "issueKeysAddedDuringSprint" := JList [] ]}.

(** A snapshot as the aggregation receives it: the sprint's metadata and
    its contents. *)
Definition snapshot (id : Z) (completed not_completed punted : string)
    : jval (F:=Q) :=
  JDict {[
    "sprint" := JDict {[ "id" := JInt id ]};
    "contents" := snapshot_contents completed not_completed punted ]}.

(** Sprints 3, 2, 1, most recent first, with 30, 20 and 10 completed
    points. *)
Definition three_sprints : list (jval (F:=Q)) :=
  [ snapshot 3 "30.0" "0.0" "null";
    snapshot 2 "20.0" "0.0" "null";
    snapshot 1 "10.0" "0.0" "null" ].

(** A snapshot without the punted estimate. *)
Definition snapshot_without_punted : jval (F:=Q) :=
  JDict {[
    "sprint" := JDict {[ "id" := JInt 1 ]};
    "contents" := JDict {[
      "completedIssuesEstimateSum" := estimate "10.0";
      "issuesNotCompletedEstimateSum" := estimate "0.0";
      "completedIssues" := JList [];
      "issuesNotCompletedInCurrentSprint" := JList [];
      "puntedIssues" := JList [];
      "issueKeysAddedDuringSprint" := JList [] ]} ]}.

(** A snapshot whose completed estimate has a JSON null for text. *)
Definition snapshot_with_none : jval (F:=Q) :=
  JDict {[
    "sprint" := JDict {[ "id" := JInt 1 ]};
    "contents" := JDict {[
      "completedIssuesEstimateSum" := JDict {[ "text" := JNull ]};
      "issuesNotCompletedEstimateSum" := estimate "0.0";
      "puntedIssuesEstimateSum" := estimate "0.0";
      "completedIssues" := JList [];
      "issuesNotCompletedInCurrentSprint" := JList [];
      "puntedIssues" := JList [];
      "issueKeysAddedDuringSprint" := JList [] ]} ]}.

End SprintExamples.

(** ** Sprint snapshots as data

    What a snapshot holds and the number each tracked field stands for,
    read off the data and not off the aggregation. *)

Module SprintData.
Import UaSprintDataFetcher.

(** The estimates delivered with a snapshot; the fourth point field,
    [pointsAddedDuringSprintSum], is computed by the aggregation. *)
Definition estimate_keys : list string :=
  [ "completedIssuesEstimateSum";
    "issuesNotCompletedEstimateSum";
    "puntedIssuesEstimateSum" ].

Section data.
Context {F : Type} `{PyFloat F}.

(** The number the text of an estimate stands for: ['null'] stands for 0,
    any other text for the float it spells, if it spells one. *)
Definition number_of_text (text : string) : option F :=
  if bool_decide (text = "null") then Some (float_of_Z 0)
  else float_of_str text.

(** The story points a number stands for; a zero of either kind counts as
    [0.0]. *)
Definition story_points (p : jval (F:=F)) : option F :=
  match p with
  | JInt z => Some (float_of_Z z)
  | JFloat x => Some (if float_is_zero x then float_of_Z 0 else x)
  | _ => None
  end.

(** An issue with [x] story points under [fields.customfield_10002]. *)
Definition has_points (issue : jval (F:=F)) (x : F) : Prop :=
  ∃ i f p,
    issue = JDict i ∧ i !! "fields" = Some (JDict f) ∧
    f !! "customfield_10002" = Some p ∧ story_points p = Some x.

(** What is relevant of a snapshot: the sprint id, the text of each
    estimate, the list under each issue field, and the story points of the
    issues added during the sprint. *)
Record row := {
  row_id : Z;
  estimate_text : string → string;
  issues : string → list (jval (F:=F));
  added_points : list F
}.

(** The snapshot [one_sprint] holds the data of [r]; it may hold more. *)
Definition describes (one_sprint : jval (F:=F)) (r : row) : Prop :=
  ∃ sd sp c,
    one_sprint = JDict sd ∧
    sd !! "sprint" = Some (JDict sp) ∧
    sp !! "id" = Some (JInt (row_id r)) ∧
    sd !! "contents" = Some (JDict c) ∧
    (∀ key, key ∈ estimate_keys →
       ∃ est, c !! key = Some (JDict est) ∧
              est !! "text" = Some (JStr (estimate_text r key))) ∧
    (∀ key, key ∈ issue_keys → c !! key = Some (JList (issues r key))) ∧
    Forall2 has_points (issues r "issueKeysAddedDuringSprint")
      (added_points r).

(** The story points added during the sprint, summed from the left. *)
Definition points_added (r : row) : F :=
  foldl fadd (float_of_Z 0) (added_points r).

(** The number a tracked field stands for: an estimate stands for the
    number of its text, the points added for the number their sum is
    printed as, an issue field for the number of its issues. *)
Definition field_value (r : row) (key : string) : option F :=
  if bool_decide (key ∈ estimate_keys)
  then number_of_text (estimate_text r key)
  else if bool_decide (key = "pointsAddedDuringSprintSum")
  then number_of_text (str_of_float (points_added r))
  else if bool_decide (key ∈ issue_keys)
  then Some (float_of_Z (Z.of_nat (length (issues r key))))
  else None.

(** The tracked field [key] is not there for the aggregation to read: an
    estimate that is absent from the contents, that is a JSON null, or
    whose text is absent or a JSON null; an issue field that is absent or a
    JSON null. *)
Definition unreadable (one_sprint : jval (F:=F)) (key : string) : Prop :=
  ∃ sd c,
    one_sprint = JDict sd ∧ sd !! "contents" = Some (JDict c) ∧
    ((key ∈ estimate_keys ∧
      (c !! key = None ∨ c !! key = Some JNull ∨
       ∃ est, c !! key = Some (JDict est) ∧
              (est !! "text" = None ∨ est !! "text" = Some JNull))) ∨
     (key ∈ issue_keys ∧ (c !! key = None ∨ c !! key = Some JNull))).

End data.

End SprintData.

(** ** Snapshots with issues, on exact rationals *)

Module SprintRows.
Import UaSprintDataFetcher SprintData QFloat SprintExamples.

Definition issue (points : Z) : jval (F:=Q) :=
  JDict {[ "fields" := JDict {[ "customfield_10002" := JInt points ]} ]}.

(** The contents of a snapshot with the given text for the completed
    estimate, the given completed issues, and added issues with the given
    story points. *)
Definition busy_contents (completed : string)
    (finished : list (jval (F:=Q))) (added : list Z)
    : gmap string (jval (F:=Q)) :=
  {[ "completedIssuesEstimateSum" := estimate completed;
     "issuesNotCompletedEstimateSum" := estimate "0.0";
     "puntedIssuesEstimateSum" := estimate "null";
     "completedIssues" := JList finished;
     "issuesNotCompletedInCurrentSprint" := JList [];
     "puntedIssues" := JList [];
     "issueKeysAddedDuringSprint" := JList (issue <$> added) ]}.

Definition busy_snapshot (id : Z) (completed : string)
    (finished : list (jval (F:=Q))) (added : list Z) : jval (F:=Q) :=
  JDict {[
    "sprint" := JDict {[ "id" := JInt id ]};
    "contents" := JDict (busy_contents completed finished added) ]}.

Definition busy_row (id : Z) (completed : string)
    (finished : list (jval (F:=Q))) (added : list Z) : row (F:=Q) :=
  {| row_id := id;
     estimate_text := λ key,
       if bool_decide (key = "completedIssuesEstimateSum") then completed
       else if bool_decide (key = "issuesNotCompletedEstimateSum")
       then "0.0" else "null";
     issues := λ key,
       if bool_decide (key = "completedIssues") then finished
       else if bool_decide (key = "issueKeysAddedDuringSprint")
       then issue <$> added else [];
     added_points := inject_Z <$> added |}.

(** The example of the specification, most recent sprint first: sprints 3,
    2, 1 with 30, 20 and 10 completed points; they completed 3, 2 and 1
    issues and had 5, 0 and 2 + 3 story points added. *)
Definition spec_example : list (jval (F:=Q)) :=
  [ busy_snapshot 3 "30.0" [JStr "A-4"; JStr "A-5"; JStr "A-6"] [5];
    busy_snapshot 2 "20.0" [JStr "A-2"; JStr "A-3"] [];
    busy_snapshot 1 "10.0" [JStr "A-1"] [2; 3] ].

(** Its rows, oldest sprint first. *)
Definition spec_example_rows : list (row (F:=Q)) :=
  [ busy_row 1 "10.0" [JStr "A-1"] [2; 3];
    busy_row 2 "20.0" [JStr "A-2"; JStr "A-3"] [];
    busy_row 3 "30.0" [JStr "A-4"; JStr "A-5"; JStr "A-6"] [5] ].

Definition spec_example_values (i : nat) (key : string) : Q :=
  default 0%Q (r ← spec_example_rows !! i; field_value r key).

(** Two snapshots of the same sprint, the more recent one first. *)
Definition repeated_id : list (jval (F:=Q)) :=
  [ snapshot 1 "20.0" "0.0" "null"; snapshot 1 "10.0" "0.0" "null" ].

End SprintRows.

(** ** The collections built on [UaModel] *)

Module UaCollections.
Import UaModel.

(** A [timedelta] of [n] hours, in microseconds. *)
Definition hours (n : Z) : Z := n * 3600000000.

(** [results[0] if len(results) > 0 else None] *)
Definition first_or_none (results : list doc) : option doc :=
  match results with
  | [] => None
  | d :: _ => Some d
  end.

(** [collection.remove(spec)]: deletes every document matching [spec]. *)
Definition remove (q : query) (l : list doc) : list doc :=
  filter (λ d, matches q d ≠ true) l.

(** A dictionary display [{...}] evaluates to a new dictionary. *)
Definition new_dict (q : query) : action loc := λ w,
  let l := fresh (dom (heap w)) in
  (Ok l, {| data := data w; docs := docs w; clock := clock w;
            heap := <[l := q]> (heap w) |}).

Definition UaDashboardData : config :=
  {| get_unique_key := None; get_ttl := Some (hours 3);
     get_unique_type := None; clear_before_add := true |}.

Definition UaTeamSprintData : config :=
  {| get_unique_key := Some "sprint_id"; get_ttl := None;
     get_unique_type := None; clear_before_add := false |}.

Definition UaTeamPullRequestsData : config :=
  {| get_unique_key := Some "id"; get_ttl := None;
     get_unique_type := None; clear_before_add := false |}.

Definition UaJiraSprintsData : config :=
  {| get_unique_key := Some "id"; get_ttl := Some (hours 2);
     get_unique_type := None; clear_before_add := false |}.

Definition UaCachedResultSets : config :=
  {| get_unique_key := None; get_ttl := Some (hours 2);
     get_unique_type := None; clear_before_add := false |}.

Section methods.
Context (to_mongo : doc → doc) (utcnow : nat → Z).

(** [UaDashboardData.load_dashboard] *)
Definition load_dashboard : action (option doc) :=
  results ← load utcnow UaDashboardData None (Some 1)
              (Some "storage_time") DESCENDING None;
  mret (first_or_none results).

(** [UaTeamSprintData.load_sprint] *)
Definition load_sprint (sprint_id : value) (override_ttl : option Z)
    : action (option doc) :=
  query_object ← new_dict {[ "sprint_id" := Is sprint_id ]};
  results ← load utcnow UaTeamSprintData (Some query_object) None None
              DESCENDING override_ttl;
  mret (first_or_none results).

(** [UaTeamPullRequestsData.get_most_recent_pr].  [cursor.count()] counts
    the documents matching the query, whatever the limit. *)
Definition get_most_recent_pr : action (option doc) :=
  stored ← get_docs;
  let cursor := find ∅ stored in
  let sorted := cursor_sort "created_at" DESCENDING cursor in
  let limited := cursor_limit 1 sorted in
  mret (if bool_decide (0 < length cursor)%nat then head limited else None).

(** [UaJiraSprintsData.load_team_sprints] *)
Definition load_team_sprints (team_id : value) : action (list doc) :=
  query_object ← new_dict {[ "team_id" := Is team_id ]};
  load utcnow UaJiraSprintsData (Some query_object) None (Some "endDate")
    DESCENDING None.

(** [UaCachedResultSets.load_from_key] *)
Definition load_from_key (key : value) (override_ttl : option Z)
    : action (list doc) :=
  query_object ← new_dict {[ "key" := Is key ]};
  load utcnow UaCachedResultSets (Some query_object) None None DESCENDING
    override_ttl.

(** [UaCachedResultSets.save_with_key], for [data] a dictionary. *)
Definition save_with_key (data : doc) (key : value) : action () :=
  stored ← get_docs;
  set_docs (remove {[ "key" := Is key ]} stored) ;;
  let data := <["key" := key]> data in
  save to_mongo utcnow UaCachedResultSets (Some (One data)) ;;
  mret ().

End methods.

End UaCollections.

(** ** The sprint fetcher: input validation and cache policy *)

Module SprintFetcher.
Import UaModel.

(** The outcome of a call that either returns or raises [LookupError]. *)
Inductive checked (A : Type) :=
  | Accepted (a : A)
  | LookupError (message : string).
Arguments Accepted {A} a.
Arguments LookupError {A} message.

(** The attributes [validate_input] assigns. *)
Record fetcher := {
  team_id : value;
  sprint_id : value;
  get_history : value
}.

(** Truthiness of a value; [True] and [False] are the integers 1 and 0. *)
Definition truthy_value (v : value) : bool :=
  match v with
  | VNone => false
  | VInt z => bool_decide (z ≠ 0)
  | VStr s => bool_decide (s ≠ "")
  | VTime _ => true
  end.

Section validation.
(** The constants of [augur.common.const], which is not part of the sources
    at hand, are taken as parameters. *)
Context (SPRINT_LAST_COMPLETED SPRINT_CURRENT : value).

(** [UaSprintDataFetcher.validate_input], given its keyword arguments as a
    dictionary: yields the outcome and the
    fetcher with its attributes assigned (they are assigned before the
    checks, also when one of them raises). *)
Definition validate_input (args : gmap string value)
    : checked bool * fetcher :=
  let self :=
    {| team_id := default VNone (args !! "team_id");
       sprint_id := default SPRINT_LAST_COMPLETED (args !! "sprint_id");
       get_history := default (VInt 0) (args !! "get_history") |} in
  if negb (truthy_value (team_id self)) &&
     negb (bool_decide (sprint_id self = SPRINT_LAST_COMPLETED ∨
                        sprint_id self = SPRINT_CURRENT))
  then (LookupError
          "You cannot request a specific sprint ID if you do not specify a team ID.",
        self)
  else if truthy_value (get_history self) &&
          bool_decide (is_Some (args !! "sprint_id"))
  then (LookupError
          "You specified that you want sprint history but also specified a specific sprint to retrieve.",
        self)
  else if truthy_value (get_history self) &&
          negb (truthy_value (team_id self))
  then (LookupError
          "You specified that you want sprint history but didn't specify a team to retrieve the history for.",
        self)
  else (Accepted true, self).

End validation.

(** A [timedelta] of [n] days, in microseconds. *)
Definition days (n : Z) : Z := n * 86400000000.

(** [UaSprintDataFetcher.should_use_cache(sprint)], for [sprint] a
    dictionary ([inl]) or anything else ([inr]); [now] is the reading of
    [datetime.datetime.now()].  Comparing a [datetime] with a value of
    another type raises [TypeError]. *)
Definition should_use_cache (now : Z) (sprint : doc + value) : result bool :=
  match sprint with
  | inl sprint =>
      match sprint !! "state" with
      | None => Raise (KeyError "state")
      | Some state =>
          if bool_decide (state = VStr "CLOSED") then
            match sprint !! "completeDate" with
            | None => Raise (KeyError "completeDate")
            | Some (VTime t) => Ok (bool_decide (t < now - days 6))
            | Some _ => Raise TypeError
            end
          else Ok false
      end
  | inr _ => Ok true
  end.

End SprintFetcher.

(** ** Notions used to state further properties *)

Module UaNotions.
Import UaModel.

(** The values stored documents have for field [f]. *)
Definition keys (f : string) (l : list doc) : list value :=
  (λ x, field x f) <$> l.

End UaNotions.

(** ** Example inputs for the collections *)

Module CollectionExamples.
Import UaModel UaCollections.

(** A clock, in microseconds, that advances by one hour at every reading. *)
Definition every_hour (n : nat) : Z := hours (Z.of_nat n).

Definition dashboard (teams : Z) : doc := {[ "teams" := VInt teams ]}.

Definition result_set (rows : Z) : doc := {[ "rows" := VInt rows ]}.

Definition sprint_stats (id points : Z) : doc :=
  {[ "sprint_id" := VInt id; "total_completed_points" := VInt points ]}.

End CollectionExamples.

(** ** Notions used to state the shape of the aggregate *)

Module SprintNotions.
Import UaSprintDataFetcher.

Section notions.
Context {F : Type} `{PyFloat F}.

(** [one_sprint['sprint']['id']] evaluates to [_id]. *)
Definition has_id (one_sprint _id : jval (F:=F)) : Prop :=
  ∃ sprint,
    getitem one_sprint "sprint" = Ok sprint ∧ getitem sprint "id" = Ok _id.

(** The record holds a triple under every tracked field. *)
Definition complete (e : gmap string (slot (F:=F))) : Prop :=
  ∀ key, key ∈ tracked_keys → ∃ t, e !! key = Some (Stats t).

(** The record's ["info"] is the [sprint] of one of the snapshots [seen]
    that are aggregated under the key [k]. *)
Definition info_of (seen : list (jval (F:=F))) (k : pykey)
    (e : gmap string (slot (F:=F))) : Prop :=
  ∃ one_sprint sprint,
    one_sprint ∈ seen ∧ sprint_key one_sprint = Ok k ∧
    getitem one_sprint "sprint" = Ok sprint ∧
    e !! "info" = Some (Info sprint).

(** Every record of the aggregate stems from one of the snapshots [seen]
    and is complete, and every snapshot has its record. *)
Definition records_of (seen : list (jval (F:=F)))
    (agg : gmap pykey (entry (F:=F))) : Prop :=
  (∀ k e, agg !! k = Some (PerSprint e) → info_of seen k e ∧ complete e) ∧
  (∀ one_sprint, one_sprint ∈ seen →
     ∃ k e, sprint_key one_sprint = Ok k ∧ agg !! k = Some (PerSprint e)).

End notions.

End SprintNotions.

(** ** The properties as the specification words them

    Each is stated for one collection, one state and one call, so that it
    can be tested on concrete inputs. *)

Module Stated.
Import UaModel.

(** "An entry with [storage_time < now - T'] is excluded and an entry with
    [storage_time >= now - T'] is included, where [T'] is the override TTL
    when one is passed and the configured TTL otherwise." *)
Definition ttl_filter (utcnow : nat → Z) (cfg : config)
    (override_ttl : option Z) (w : world) : Prop :=
  ∀ T' found e st,
    T' = default (default 0 (get_ttl cfg)) override_ttl →
    (load utcnow cfg None None None DESCENDING override_ttl w).1 = Ok found →
    e ∈ docs w →
    e !! "storage_time" = Some (VTime st) →
    (st < utcnow (clock w) - T' → e ∉ found) ∧
    (utcnow (clock w) - T' ≤ st → e ∈ found).

(** "For every Load with a limit argument [n], the result contains at most
    [n] entries." *)
Definition capped_at_limit (utcnow : nat → Z) (cfg : config) (n : Z)
    (w : world) : Prop :=
  ∀ found,
    (load utcnow cfg None (Some n) None DESCENDING None w).1 = Ok found →
    Z.of_nat (length found) ≤ n.

(** "After the call the Collection contains exactly the entries of the most
    recent Save batch and nothing else." *)
Definition holds_exactly_the_batch (to_mongo : doc → doc) (utcnow : nat → Z)
    (cfg : config) (b : batch) (w : world) : Prop :=
  docs (save to_mongo utcnow cfg (Some b) w).2 ≡ₚ
  to_mongo <$> stamp_all utcnow cfg (clock w) (entries b).

(** "Save and Update invoked with an empty entry batch fail with
    NoDataError, and the stored contents are unchanged." *)
Definition empty_batch_fails (to_mongo : doc → doc) (utcnow : nat → Z)
    (cfg : config) (w : world) : Prop :=
  (save to_mongo utcnow cfg (Some (Many [])) w).1 = Raise NoDataError ∧
  docs (save to_mongo utcnow cfg (Some (Many [])) w).2 = docs w ∧
  (update to_mongo utcnow cfg (Some (Many [])) w).1 = Raise NoDataError ∧
  docs (update to_mongo utcnow cfg (Some (Many [])) w).2 = docs w.

(** "Calling Update twice in succession with identical entries yields the
    same final stored state as calling it once." *)
Definition update_idempotent (to_mongo : doc → doc) (utcnow : nat → Z)
    (cfg : config) (b : batch) (w : world) : Prop :=
  docs (update to_mongo utcnow cfg (Some b)
          (update to_mongo utcnow cfg (Some b) w).2).2 =
  docs (update to_mongo utcnow cfg (Some b) w).2.

(** "After the call, the caller's mapping additionally contains the
    [storage_time] lower-bound clause (when a TTL applies and the caller did
    not constrain [storage_time])." *)
Definition query_mutated_in_place (utcnow : nat → Z) (cfg : config)
    (l : loc) (w : world) : Prop :=
  ∀ q T,
    heap w !! l = Some q →
    get_ttl cfg = Some T → T ≠ 0 →
    q !! "storage_time" = None →
    ∃ q', heap (load utcnow cfg (Some l) None None DESCENDING None w).2 !! l
            = Some q' ∧
          q' !! "storage_time" = Some (Gte (VTime (utcnow (clock w) - T))).

End Stated.

Module StatedSprint.
Import UaSprintDataFetcher.

(** "A tracked numeric field that is null or absent is treated as the value
    0, and the aggregator does not raise an error for such a snapshot." *)
Definition tolerates {F} `{PyFloat F} (sprint_data : list jval) : Prop :=
  is_ok (_aggregate_sprint_history_data sprint_data) = true.

(** "For each tracked numeric field and each ascending index i, emits
    actual = the field's value at i, running_sum = the sum of the field's
    values at indices 0..i, and running_avg = running_sum / (i+1)", for the
    field [key] with the values [values] by ascending index. *)
Definition running_stats {F} `{PyFloat F} (sprint_data : list jval)
    (key : string) (values : list F) : Prop :=
  ∃ agg,
    _aggregate_sprint_history_data sprint_data = Ok agg ∧
    ∀ i one_sprint,
      reverse sprint_data !! i = Some one_sprint →
      ∃ k e t,
        sprint_key one_sprint = Ok k ∧
        agg !! k = Some (PerSprint e) ∧
        e !! key = Some (Stats t) ∧
        Some (actual t) = values !! i ∧
        running_sum t =
          total (λ j, default (float_of_Z 0) (values !! j)) i ∧
        running_avg t = fdiv (running_sum t) (float_of_Z (Z.of_nat i + 1)).

End StatedSprint.

(** ** Properties of the cache store *)

Module UaModelFacts.
Import UaModel Examples.

Ltac run :=
  repeat (unfold save, update, load, stage, when, add_data, clear_data,
            empty, decorate_data, get_data, set_data, set_docs, get_docs,
            raise, mbind, mret, action_bind, action_ret in *;
          simpl in *).

(** *** The backend *)

Local Arguments violates : simpl never.

Lemma matches_singleton f v d :
  matches {[ f := Is v ]} d = true ↔ field d f = v.
Proof.
  unfold matches. rewrite bool_decide_eq_true, map_Forall_singleton.
  simpl. by rewrite bool_decide_eq_true.
Qed.

Lemma violates_false f d l :
  violates (Some f) d l = false ↔ Forall (λ x, field x f ≠ field d f) l.
Proof.
  unfold violates. rewrite bool_decide_eq_false, <- Forall_Exists_neg.
  done.
Qed.

Lemma violates_none d l : violates None d l = false.
Proof. done. Qed.

Lemma upsert_keys f d l :
  (λ x, field x f) <$> upsert f d l =
    if decide (field d f ∈ (λ x, field x f) <$> l)
    then (λ x, field x f) <$> l
    else ((λ x, field x f) <$> l) ++ [field d f].
Proof.
  induction l as [|x l IH]; cbn [upsert].
  - rewrite decide_False; [done|]. rewrite fmap_nil. apply not_elem_of_nil.
  - rewrite !fmap_cons. case_bool_decide as Hx.
    + rewrite decide_True by (rewrite Hx; left). by rewrite fmap_cons, Hx.
    + rewrite fmap_cons, IH.
      destruct (decide (field d f ∈ (λ x, field x f) <$> l)) as [Hin|Hin].
      * rewrite decide_True by (by right). done.
      * rewrite decide_False; [done|].
        intros [Heq|?]%elem_of_cons; [|done]. by rewrite Heq in Hx.
Qed.

Lemma upsert_index_ok f d l :
  index_ok (Some f) l → index_ok (Some f) (upsert f d l).
Proof.
  unfold index_ok. intros Hnd. rewrite upsert_keys.
  case_decide as Hin; [done|].
  apply NoDup_app. split_and!; [done| |apply NoDup_singleton].
  intros k Hk Hk'%list_elem_of_singleton. by subst.
Qed.

Lemma upserts_index_ok f ds l :
  index_ok (Some f) l → index_ok (Some f) (upserts f ds l).
Proof.
  revert l. induction ds as [|d ds IH]; intros l Hl; [done|].
  apply IH. by apply upsert_index_ok.
Qed.

(** On a collection with a unique index on [f], the upsert filtered on the
    value the replacement has for [f] never violates the index and is the
    function [upsert]. *)
Lemma replace_upsert_keyed f d l :
  index_ok (Some f) l →
  replace_upsert (Some f) {[ f := Is (field d f) ]} d l = Ok (upsert f d l).
Proof.
  unfold replace_upsert, insert_one.
  induction l as [|x l IH]; intros Hnd; [done|].
  unfold index_ok in Hnd. rewrite fmap_cons in Hnd.
  apply NoDup_cons in Hnd as [Hx Hnd]. specialize (IH Hnd).
  cbn [list_find upsert]. case_decide as Hm.
  - apply matches_singleton in Hm. rewrite bool_decide_true by done.
    cbn. rewrite (proj2 (violates_false f d l)); [done|].
    apply Forall_forall. intros y Hy Heq. apply Hx.
    rewrite Hm, <- Heq. by apply (list_elem_of_fmap_2 (λ x, field x f)).
  - rewrite matches_singleton in Hm. rewrite bool_decide_false by done.
    destruct (list_find _ l) as [[i y]|]; cbn in *.
    + destruct (violates (Some f) d (delete i l)) eqn:Hv; [done|].
      apply violates_false in Hv.
      rewrite (proj2 (violates_false f d (x :: delete i l)))
        by (by constructor).
      injection IH as IH. exact (f_equal (λ l, Ok (x :: l)) IH).
    + destruct (violates (Some f) d l) eqn:Hv; [done|].
      apply violates_false in Hv.
      rewrite (proj2 (violates_false f d (x :: l))) by (by constructor).
      injection IH as IH. exact (f_equal (λ l, Ok (x :: l)) IH).
Qed.

(** Writing twice under the same key is writing once; writes under
    different keys commute once the first key is present. *)
Lemma upsert_upsert f d1 d2 l :
  field d1 f = field d2 f →
  upsert f d2 (upsert f d1 l) = upsert f d2 l.
Proof.
  intros Hk. induction l as [|x l IH]; simpl.
  - by rewrite bool_decide_true.
  - rewrite Hk. case_bool_decide as Hx; simpl.
    + by rewrite bool_decide_true.
    + rewrite bool_decide_false by done. by rewrite IH.
Qed.

Lemma upsert_comm f d v l :
  field v f ≠ field d f →
  field v f ∈ (λ x, field x f) <$> l →
  upsert f v (upsert f d l) = upsert f d (upsert f v l).
Proof.
  intros Hne. induction l as [|x l IH]; intros Hin; simpl.
  - by apply elem_of_nil in Hin.
  - destruct (decide (field x f = field d f)) as [Hd|Hd];
      destruct (decide (field x f = field v f)) as [Hv|Hv].
    + congruence.
    + rewrite (bool_decide_true _ Hd), (bool_decide_false _ Hv). simpl.
      rewrite bool_decide_false by congruence.
      by rewrite (bool_decide_true _ Hd).
    + rewrite (bool_decide_false _ Hd), (bool_decide_true _ Hv). simpl.
      rewrite (bool_decide_true _ Hv).
      by rewrite bool_decide_false by congruence.
    + rewrite (bool_decide_false _ Hd), (bool_decide_false _ Hv). simpl.
      rewrite (bool_decide_false _ Hd), (bool_decide_false _ Hv).
      f_equal. apply IH.
      apply elem_of_cons in Hin as [?|Hin]; [congruence|done].
Qed.

Lemma upsert_keys_present f d l :
  field d f ∈ (λ x, field x f) <$> l →
  (λ x, field x f) <$> upsert f d l = (λ x, field x f) <$> l.
Proof. intros Hin. rewrite upsert_keys. by rewrite decide_True. Qed.

Lemma upsert_keys_mono f d l k :
  k ∈ (λ x, field x f) <$> l → k ∈ (λ x, field x f) <$> upsert f d l.
Proof.
  intros Hin. rewrite upsert_keys. case_decide; [done|].
  apply elem_of_app. by left.
Qed.

Lemma upsert_keys_self f d l :
  field d f ∈ (λ x, field x f) <$> upsert f d l.
Proof.
  rewrite upsert_keys. case_decide; [done|].
  apply elem_of_app. right. by apply list_elem_of_singleton.
Qed.

(** A batch of upserts whose keys are all present already absorbs an
    earlier write under the key of a later one. *)
Lemma upserts_absorb f vs d1 d2 l :
  field d1 f = field d2 f →
  Forall (λ v, field v f ∈ (λ x, field x f) <$> l) vs →
  upsert f d2 (upserts f vs (upsert f d1 l)) =
  upsert f d2 (upserts f vs l).
Proof.
  intros Hk. revert l. induction vs as [|v vs IH]; intros l Hvs.
  - by apply upsert_upsert.
  - apply Forall_cons in Hvs as [Hv Hvs]. cbn [upserts foldl].
    fold (upserts f vs (upsert f v (upsert f d1 l))).
    fold (upserts f vs (upsert f v l)).
    destruct (decide (field v f = field d1 f)) as [Heq|Hne].
    + by rewrite upsert_upsert.
    + rewrite upsert_comm by done. apply IH.
      eapply Forall_impl; [done|]. intros y Hy. simpl in *.
      by rewrite upsert_keys_present.
Qed.

Lemma upserts_snoc f ds d l :
  upserts f (ds ++ [d]) l = upsert f d (upserts f ds l).
Proof. unfold upserts. by rewrite foldl_app. Qed.

Lemma upserts_keys_mono f ds l k :
  k ∈ (λ x, field x f) <$> l → k ∈ (λ x, field x f) <$> upserts f ds l.
Proof.
  revert l. induction ds as [|d ds IH]; intros l Hin; [done|].
  apply IH. by apply upsert_keys_mono.
Qed.

Lemma upserts_keys_written f ds l :
  Forall (λ v, field v f ∈ (λ x, field x f) <$> upserts f ds l) ds.
Proof.
  induction ds as [|d ds IH] using rev_ind; [done|].
  rewrite upserts_snoc. apply Forall_app. split.
  - eapply Forall_impl; [done|]. intros v Hv. by apply upsert_keys_mono.
  - apply Forall_singleton, upsert_keys_self.
Qed.

(** The second of two batches written under the same sequence of keys
    determines the outcome. *)
Lemma upserts_twice f ds1 ds2 l :
  (λ x, field x f) <$> ds1 = (λ x, field x f) <$> ds2 →
  upserts f ds2 (upserts f ds1 l) = upserts f ds2 l.
Proof.
  revert ds2. induction ds1 as [|d1 ds1 IH] using rev_ind; intros ds2 Hk.
  - done.
  - destruct ds2 as [|d2 ds2 _] using rev_ind.
    + rewrite fmap_app in Hk. by destruct (_ <$> ds1).
    + rewrite !fmap_app in Hk. simpl in Hk.
      apply app_inj_tail in Hk as [Hks Hd].
      rewrite !upserts_snoc.
      rewrite upserts_absorb; [by rewrite IH|done|].
      apply (Forall_fmap (λ x, field x f)
               (λ k, k ∈ (λ x, field x f) <$> upserts f ds1 l)).
      rewrite <- Hks. apply Forall_fmap, upserts_keys_written.
Qed.

Lemma upsert_absent f d l :
  field d f ∉ (λ x, field x f) <$> l → upsert f d l = l ++ [d].
Proof.
  induction l as [|x l IH]; intros Hin; [done|]. cbn [upsert].
  rewrite fmap_cons in Hin. apply not_elem_of_cons in Hin as [Hx Hin].
  rewrite bool_decide_false by done. by rewrite IH.
Qed.

Lemma upserts_fresh f ds l :
  NoDup ((λ x, field x f) <$> (l ++ ds)) → upserts f ds l = l ++ ds.
Proof.
  revert l. induction ds as [|d ds IH]; intros l Hnd.
  - by rewrite app_nil_r.
  - cbn [upserts foldl]. fold (upserts f ds (upsert f d l)).
    rewrite cons_middle, app_assoc in Hnd.
    rewrite upsert_absent, IH, <- app_assoc; [done..|].
    rewrite fmap_app in Hnd. apply NoDup_app in Hnd as (Hnd & _ & _).
    rewrite fmap_app in Hnd. apply NoDup_app in Hnd as (_ & Hd & _).
    intros Hin. apply (Hd _ Hin). by apply list_elem_of_singleton.
Qed.

(** Whatever a replacing upsert does, it only adds the replacement. *)
Lemma replace_upsert_elem index q d l l' :
  replace_upsert index q d l = Ok l' → ∀ e, e ∈ l' → e = d ∨ e ∈ l.
Proof.
  unfold replace_upsert, insert_one. intros Hr e He.
  destruct (list_find _ l) as [[i y]|].
  - destruct (violates index d (delete i l)); [done|].
    injection Hr as <-.
    apply list_elem_of_lookup in He as [j Hj].
    destruct (decide (i = j)) as [->|Hne].
    + destruct (decide (j < length l)%nat).
      * rewrite list_lookup_insert_eq in Hj by done. left. congruence.
      * rewrite list_insert_ge in Hj by lia. right.
        by eapply list_elem_of_lookup_2.
    + rewrite list_lookup_insert_ne in Hj by done. right.
      by eapply list_elem_of_lookup_2.
  - destruct (violates index d l); [done|]. injection Hr as <-.
    apply elem_of_app in He as [?|He]; [by right|].
    apply list_elem_of_singleton in He. by left.
Qed.

(** *** The BSON order is a total preorder *)

Lemma string_compare_trans a b c :
  String.compare a b ≠ Gt → String.compare b c ≠ Gt →
  String.compare a c ≠ Gt.
Proof.
  revert b c. induction a as [|x a IH]; intros [|y b] [|z c]; simpl;
    try done.
  unfold Ascii.compare.
  destruct (N.compare_spec (N_of_ascii x) (N_of_ascii y)) as [Hxy|Hxy|Hxy];
    destruct (N.compare_spec (N_of_ascii y) (N_of_ascii z)) as [Hyz|Hyz|Hyz];
    destruct (N.compare_spec (N_of_ascii x) (N_of_ascii z)) as [Hxz|Hxz|Hxz];
    try done; try lia.
  apply IH.
Qed.

Lemma bson_compare_antisym a b :
  bson_compare a b = CompOpp (bson_compare b a).
Proof.
  destruct a, b; simpl; try done;
    auto using Z.compare_antisym, String.compare_antisym.
Qed.

#[local] Instance bson_le_total : Total bson_le.
Proof.
  intros a b. unfold bson_le. rewrite (bson_compare_antisym b a).
  destruct (bson_compare a b); simpl; auto.
Qed.

#[local] Instance bson_le_trans : Transitive bson_le.
Proof.
  unfold bson_le. intros a b c.
  destruct a, b, c; simpl; try done;
    try apply string_compare_trans;
    rewrite ?Z.compare_gt_iff; lia.
Qed.

Lemma bson_le_time a b : bson_le (VTime a) (VTime b) ↔ a ≤ b.
Proof. unfold bson_le. simpl. by rewrite Z.compare_gt_iff, Z.nlt_ge. Qed.

(** *** Sorting and limiting *)

Lemma cursor_sort_perm f dir l : cursor_sort f dir l ≡ₚ l.
Proof. destruct dir; apply merge_sort_Permutation. Qed.

Lemma cursor_result_elem limit order_by dir l e :
  e ∈ cursor_result limit order_by dir l → e ∈ l.
Proof.
  unfold cursor_result, cursor_limit. intros He.
  assert (e ∈ (if truthy_str order_by
               then cursor_sort (default "" order_by) dir l else l)) as He'.
  { destruct (truthy_num limit); [|done]. simpl in He.
    apply elem_of_take in He as (i & Hi & _).
    by eapply list_elem_of_lookup_2. }
  destruct (truthy_str order_by); [|done].
  by rewrite cursor_sort_perm in He'.
Qed.

Lemma cursor_result_unlimited limit order_by dir l e :
  truthy_num limit = false → e ∈ l → e ∈ cursor_result limit order_by dir l.
Proof.
  unfold cursor_result. intros -> He.
  destruct (truthy_str order_by); [|done]. by rewrite cursor_sort_perm.
Qed.

Lemma cursor_result_limited limit order_by dir l :
  truthy_num limit = true →
  (length (cursor_result limit order_by dir l) ≤ 1)%nat.
Proof.
  unfold cursor_result, cursor_limit. intros ->. simpl.
  rewrite length_take. lia.
Qed.

(** Descending order puts a document with the largest key first. *)
Lemma sort_descending_head f l :
  match cursor_sort f DESCENDING l with
  | [] => l = []
  | e :: _ => e ∈ l ∧ ∀ e', e' ∈ l → bson_le (field e' f) (field e f)
  end.
Proof.
  unfold cursor_sort.
  set (R := λ a b : doc, bson_le (field b f) (field a f)).
  assert (Total R) by (intros a b; apply (total bson_le)).
  assert (Transitive R)
    by (intros a b c Hab Hbc; apply (transitivity (R:=bson_le)) with (field b f);
        done).
  pose proof (StronglySorted_merge_sort R l) as Hs.
  pose proof (merge_sort_Permutation R l) as Hp.
  destruct (merge_sort R l) as [|e rest].
  - symmetry in Hp. by apply Permutation_nil_r in Hp.
  - split; [rewrite <- Hp; left|].
    intros e'. rewrite <- Hp. intros [->|He']%elem_of_cons.
    + destruct (total bson_le (field e f) (field e f)); done.
    + apply StronglySorted_inv in Hs as [_ Hall].
      by apply (proj1 (Forall_forall _ _) Hall).
Qed.

Section facts.
Context (to_mongo : doc → doc) (utcnow : nat → Z).

(** Nothing staged and nothing passed: both writes raise and leave the
    state as it was. *)
Lemma save_nothing cfg data_arg w :
  truthy_batch data_arg = false → data w = [] →
  save to_mongo utcnow cfg data_arg w = (Raise NoDataError, w).
Proof.
  intros Harg Hdata. unfold save, stage.
  destruct data_arg as [b|]; rewrite ?Harg; run; rewrite Hdata; done.
Qed.

Lemma update_nothing cfg data_arg w :
  truthy_batch data_arg = false → data w = [] →
  update to_mongo utcnow cfg data_arg w =
    (Raise (if get_unique_key cfg is Some _ then NoDataError
            else ConfigurationError), w).
Proof.
  intros Harg Hdata. unfold update, stage.
  destruct (get_unique_key cfg); [|done].
  destruct data_arg as [b|]; rewrite ?Harg; run; rewrite Hdata; done.
Qed.

(** *** Staging and stamping *)

Lemma stage_truthy b w :
  truthy_batch (Some b) = true →
  stage (Some b) w =
    (Ok (), {| data := entries b; docs := docs w; clock := clock w;
               heap := heap w |}).
Proof. intros Hb. unfold stage. rewrite Hb. by destruct b. Qed.

Lemma entries_truthy b : truthy_batch (Some b) = true → entries b ≠ [].
Proof. destruct b; simpl; [by intros ?%bool_decide_eq_true|done]. Qed.

Lemma stamp_all_length cfg n l :
  length (stamp_all utcnow cfg n l) = length l.
Proof. revert n. induction l; intros n; simpl; by f_equal. Qed.

Lemma stamp_all_nil cfg n l : stamp_all utcnow cfg n l = [] → l = [].
Proof. by destruct l. Qed.

Lemma stamp_lookup cfg t d f :
  f ≠ "storage_time" →
  stamp cfg t d !! f =
    if decide (f = "storage_type") then Some (storage_type cfg) else d !! f.
Proof.
  intros Hf. unfold stamp. case_decide as Hty.
  - subst. by rewrite lookup_insert_eq.
  - rewrite lookup_insert_ne by done. by rewrite lookup_insert_ne.
Qed.

Lemma stamp_all_has_key cfg f n l :
  Forall (λ d, is_Some (d !! f)) l →
  Forall (λ d, is_Some (d !! f)) (stamp_all utcnow cfg n l).
Proof.
  intros Hl. revert n. induction Hl as [|d l Hd _ IH]; intros n; [done|].
  simpl. constructor; [|done]. unfold stamp.
  destruct (decide (f = "storage_type")) as [->|?];
    [by rewrite lookup_insert_eq|rewrite lookup_insert_ne by done].
  destruct (decide (f = "storage_time")) as [->|?];
    [by rewrite lookup_insert_eq|by rewrite lookup_insert_ne].
Qed.

(** The key under which an entry is written does not depend on when it is
    stamped. *)
Lemma stamp_all_keys cfg f n m l :
  f ≠ "storage_time" →
  (∀ d, to_mongo d !! f = d !! f) →
  (λ x, field x f) <$> (to_mongo <$> stamp_all utcnow cfg n l) =
  (λ x, field x f) <$> (to_mongo <$> stamp_all utcnow cfg m l).
Proof.
  intros Hf Hser. revert n m. induction l as [|d l IH]; intros n m; [done|].
  cbn [stamp_all]. rewrite !fmap_cons. f_equal; [|apply IH].
  unfold field. by rewrite !Hser, !stamp_lookup.
Qed.

(** *** The write loops *)

Lemma for_each_cons {A} (body : A → action ()) x l w :
  for_each (x :: l) body w =
    match body x w with
    | (Ok _, w') => for_each l body w'
    | (Raise e, w') => (Raise e, w')
    end.
Proof. done. Qed.

Lemma keyed_write cfg f d w :
  unique_index cfg = Some f →
  to_mongo d !! f = d !! f →
  is_Some (d !! f) →
  index_ok (Some f) (docs w) →
  (k ← UaModel.getitem d f;
   collection_update cfg {[ f := Is k ]} (to_mongo d)) w =
  (Ok (), {| data := data w; docs := upsert f (to_mongo d) (docs w);
             clock := clock w; heap := heap w |}).
Proof.
  intros Hidx Hser [v Hv] Hok.
  unfold mbind, action_bind, UaModel.getitem. rewrite Hv.
  unfold mret, action_ret, collection_update, on_collection.
  rewrite Hidx.
  assert (v = field (to_mongo d) f) as ->
    by (unfold field; by rewrite Hser, Hv).
  by rewrite replace_upsert_keyed.
Qed.

Lemma keyed_loop cfg f ds w :
  unique_index cfg = Some f →
  (∀ d, to_mongo d !! f = d !! f) →
  Forall (λ d, is_Some (d !! f)) ds →
  index_ok (Some f) (docs w) →
  for_each ds (λ d,
    k ← UaModel.getitem d f;
    collection_update cfg {[ f := Is k ]} (to_mongo d)) w =
  (Ok (), {| data := data w;
             docs := upserts f (to_mongo <$> ds) (docs w);
             clock := clock w; heap := heap w |}).
Proof.
  intros Hidx Hser Hds. revert w.
  induction Hds as [|d ds Hd _ IH]; intros w Hok; [by destruct w|].
  rewrite for_each_cons, keyed_write by done.
  rewrite IH by (by apply upsert_index_ok). done.
Qed.

Lemma unique_index_truthy cfg f :
  get_unique_key cfg = Some f → f ≠ "" → unique_index cfg = Some f.
Proof.
  intros Hk Hf. unfold unique_index. rewrite Hk. simpl.
  by rewrite bool_decide_true.
Qed.

(** What [update] does with a non-empty batch whose entries carry the
    unique key. *)
Lemma update_keyed cfg f b w :
  get_unique_key cfg = Some f → f ≠ "" →
  (∀ d, to_mongo d !! f = d !! f) →
  truthy_batch (Some b) = true →
  Forall (λ d, is_Some (d !! f)) (entries b) →
  index_ok (Some f) (docs w) →
  update to_mongo utcnow cfg (Some b) w =
    (Ok (),
     {| data := stamp_all utcnow cfg (clock w) (entries b);
        docs := upserts f
                  (to_mongo <$> stamp_all utcnow cfg (clock w) (entries b))
                  (docs w);
        clock := (clock w + length (entries b))%nat;
        heap := heap w |}).
Proof.
  intros Hk Hf Hser Hb Hkeys Hok.
  pose proof (entries_truthy b Hb) as Hne.
  unfold update. rewrite Hk.
  unfold mbind at 1, action_bind. rewrite stage_truthy by done.
  unfold mbind at 1, action_bind, get_data at 1. cbn [data].
  rewrite bool_decide_false by done.
  unfold mbind at 1, action_bind, decorate_data. cbn [data docs clock heap].
  unfold mbind at 1, action_bind, get_data. cbn [data].
  rewrite (keyed_loop cfg f); cbn [data docs clock heap]; try done.
  - by apply unique_index_truthy.
  - by apply stamp_all_has_key.
Qed.

(** The writes leave [self.data], the clock and the heap alone, also when
    they raise. *)
Definition frame (w w' : world) : Prop :=
  data w' = data w ∧ clock w' = clock w ∧ heap w' = heap w.

Lemma on_collection_frame op w : frame w (on_collection op w).2.
Proof. unfold on_collection. by destruct (op (docs w)). Qed.

Lemma for_each_frame {A} (body : A → action ()) l :
  (∀ x w, frame w (body x w).2) → ∀ w, frame w (for_each l body w).2.
Proof.
  intros Hbody. induction l as [|x l IH]; intros w; [done|].
  rewrite for_each_cons. specialize (Hbody x w).
  destruct (body x w) as [[[]|e] w1]; simpl in *; [|done].
  destruct (IH w1) as (? & ? & ?), Hbody as (? & ? & ?).
  split_and!; congruence.
Qed.

Lemma save_write_frame cfg f d w :
  frame w ((k ← UaModel.getitem d f;
            find_one_and_replace cfg {[ "id" := Is k ]} (to_mongo d)) w).2.
Proof.
  unfold mbind, action_bind, UaModel.getitem.
  destruct (d !! f); [|done]. apply on_collection_frame.
Qed.

(** Where a [save] of a non-empty batch leaves the clock and the heap. *)
Lemma save_clock_heap cfg b w :
  truthy_batch (Some b) = true →
  ∃ r w', save to_mongo utcnow cfg (Some b) w = (r, w') ∧
          clock w' = (clock w + length (entries b))%nat ∧ heap w' = heap w.
Proof.
  intros Hb. pose proof (entries_truthy b Hb) as Hne.
  unfold save.
  unfold mbind at 1, action_bind. rewrite stage_truthy by done.
  unfold mbind at 1, action_bind, get_data at 1. cbn [data].
  rewrite bool_decide_false by done.
  unfold mbind at 1, action_bind, decorate_data. cbn [data docs clock heap].
  set (w1 := {| data := _ |}).
  assert (∃ w2, (when (clear_before_add cfg) empty w1 = (Ok (), w2)) ∧
                frame w1 w2) as (w2 & Hw2 & Hf2).
  { destruct (clear_before_add cfg); eexists; (split; [done|]); done. }
  unfold mbind at 1, action_bind. rewrite Hw2.
  destruct Hf2 as (Hd2 & Hc2 & Hh2).
  destruct (truthy_str (get_unique_key cfg)).
  - unfold mbind at 1, action_bind.
    unfold mbind at 1, action_bind, get_data.
    pose proof (for_each_frame _ (data w2)
      (λ d w, save_write_frame cfg (default "" (get_unique_key cfg)) d w) w2)
      as (? & Hc & Hh).
    destruct (for_each _ _ w2) as [[[]|e] w3]; simpl in *;
      do 2 eexists; (split; [done|]); by rewrite Hc, Hh, Hc2, Hh2.
  - unfold mbind at 1, action_bind, get_data.
    unfold mbind at 1, action_bind, insert_many.
    pose proof (for_each_frame _ (to_mongo <$> data w2)
      (λ d w, on_collection_frame (insert_one (unique_index cfg) d) w) w2)
      as (? & Hc & Hh).
    destruct (for_each _ _ w2) as [[[]|e] w3]; simpl in *;
      do 2 eexists; (split; [done|]); by rewrite Hc, Hh, Hc2, Hh2.
Qed.

(** A [save] that empties the collection first does not depend on what was
    stored or staged. *)
Lemma save_clear_indep cfg b w w' :
  clear_before_add cfg = true →
  truthy_batch (Some b) = true →
  clock w = clock w' → heap w = heap w' →
  save to_mongo utcnow cfg (Some b) w = save to_mongo utcnow cfg (Some b) w'.
Proof.
  intros Hclear Hb Hc Hh. pose proof (entries_truthy b Hb) as Hne.
  unfold save. rewrite Hclear.
  unfold mbind at 1, action_bind. rewrite stage_truthy by done.
  symmetry. unfold mbind at 1, action_bind. rewrite stage_truthy by done.
  unfold mbind at 1, action_bind, get_data at 1. cbn [data].
  symmetry. unfold mbind at 1, action_bind, get_data at 1. cbn [data].
  rewrite bool_decide_false by done.
  unfold mbind at 1, action_bind, decorate_data. cbn [data docs clock heap].
  symmetry.
  unfold mbind at 1, action_bind, decorate_data. cbn [data docs clock heap].
  unfold mbind at 1, action_bind, when, empty, set_docs.
  cbn [data docs clock heap].
  symmetry.
  unfold mbind at 1, action_bind, when, empty, set_docs.
  cbn [data docs clock heap].
  by rewrite Hc, Hh.
Qed.

(** With the unique key named ["id"], the upsert path of [save] is the one
    of [update]. *)
Lemma save_as_update cfg data_arg w :
  get_unique_key cfg = Some "id" →
  clear_before_add cfg = false →
  save to_mongo utcnow cfg data_arg w =
    match update to_mongo utcnow cfg data_arg w with
    | (Ok _, w') => (Ok true, w')
    | (Raise e, w') => (Raise e, w')
    end.
Proof.
  intros Hk Hclear. unfold save, update. rewrite Hk, Hclear.
  cbn [truthy_str default when].
  rewrite bool_decide_true by done.
  unfold find_one_and_replace, collection_update.
  unfold mbind, mret, action_bind, action_ret, get_data, raise.
  destruct (stage data_arg w) as [[[]|e] w1]; [|done].
  case_bool_decide; [done|].
  destruct (decorate_data utcnow cfg w1) as [[[]|e] w2]; [|done].
  by destruct (for_each _ _ w2) as [[[]|e] w3].
Qed.

(** What [save] does with a non-empty batch on a collection keyed on
    ["id"]. *)
Lemma save_keyed_id cfg b w :
  get_unique_key cfg = Some "id" →
  (∀ d, to_mongo d !! "id" = d !! "id") →
  truthy_batch (Some b) = true →
  Forall (λ d, is_Some (d !! "id")) (entries b) →
  index_ok (Some "id") (if clear_before_add cfg then [] else docs w) →
  save to_mongo utcnow cfg (Some b) w =
    (Ok true,
     {| data := stamp_all utcnow cfg (clock w) (entries b);
        docs := upserts "id"
                  (to_mongo <$> stamp_all utcnow cfg (clock w) (entries b))
                  (if clear_before_add cfg then [] else docs w);
        clock := (clock w + length (entries b))%nat;
        heap := heap w |}).
Proof.
  intros Hk Hser Hb Hkeys Hok.
  pose proof (entries_truthy b Hb) as Hne.
  unfold save. rewrite Hk. cbn [truthy_str default].
  rewrite (bool_decide_true ("id" ≠ "")) by done.
  unfold mbind at 1, action_bind. rewrite stage_truthy by done.
  unfold mbind at 1, action_bind, get_data at 1. cbn [data].
  rewrite bool_decide_false by done.
  unfold mbind at 1, action_bind, decorate_data. cbn [data docs clock heap].
  unfold mbind at 1, action_bind.
  assert (unique_index cfg = Some "id") as Hidx
    by (by apply unique_index_truthy).
  pose proof (stamp_all_has_key cfg "id" (clock w) _ Hkeys) as Hst.
  destruct (clear_before_add cfg); cbn [when];
    unfold empty, set_docs, mret at 1, action_ret;
    cbn [data docs clock heap];
    unfold mbind at 1, action_bind;
    unfold mbind at 1, action_bind, get_data; cbn [data];
    unfold find_one_and_replace;
    rewrite (keyed_loop cfg "id"); done.
Qed.

(** The unkeyed path: a bulk insert that cannot be refused. *)
Lemma insert_loop cfg ds w :
  unique_index cfg = None →
  insert_many cfg ds w =
    (Ok (), {| data := data w; docs := docs w ++ ds; clock := clock w;
               heap := heap w |}).
Proof.
  intros Hidx. unfold insert_many. rewrite Hidx. revert w.
  induction ds as [|d ds IH]; intros w.
  - rewrite app_nil_r. by destruct w.
  - rewrite for_each_cons. unfold on_collection at 1, insert_one.
    rewrite violates_none. unfold set_docs. rewrite IH.
    cbn [data docs clock heap]. by rewrite <- app_assoc.
Qed.

Lemma save_unkeyed cfg b w :
  truthy_str (get_unique_key cfg) = false →
  truthy_batch (Some b) = true →
  save to_mongo utcnow cfg (Some b) w =
    (Ok true,
     {| data := stamp_all utcnow cfg (clock w) (entries b);
        docs := (if clear_before_add cfg then [] else docs w) ++
                (to_mongo <$> stamp_all utcnow cfg (clock w) (entries b));
        clock := (clock w + length (entries b))%nat;
        heap := heap w |}).
Proof.
  intros Hk Hb. pose proof (entries_truthy b Hb) as Hne.
  unfold save. rewrite Hk.
  unfold mbind at 1, action_bind. rewrite stage_truthy by done.
  unfold mbind at 1, action_bind, get_data at 1. cbn [data].
  rewrite bool_decide_false by done.
  unfold mbind at 1, action_bind, decorate_data. cbn [data docs clock heap].
  unfold mbind at 1, action_bind.
  assert (unique_index cfg = None) as Hidx
    by (unfold unique_index; by rewrite Hk).
  destruct (clear_before_add cfg); cbn [when];
    unfold empty, set_docs, mret at 1, action_ret;
    cbn [data docs clock heap];
    unfold mbind at 1, action_bind, get_data; cbn [data];
    unfold mbind at 1, action_bind;
    by rewrite insert_loop.
Qed.

(** The upsert loop of [save] only ever stores entries of the batch, also
    when it stops on an exception. *)
Lemma save_loop_elem cfg f ds w r w' :
  for_each ds (λ d,
    k ← UaModel.getitem d f;
    find_one_and_replace cfg {[ "id" := Is k ]} (to_mongo d)) w = (r, w') →
  ∀ e, e ∈ docs w' → e ∈ docs w ∨ e ∈ to_mongo <$> ds.
Proof.
  revert w. induction ds as [|d ds IH]; intros w Hrun e He.
  - injection Hrun as <- <-. by left.
  - rewrite for_each_cons in Hrun.
    unfold mbind at 1, action_bind, UaModel.getitem in Hrun.
    rewrite fmap_cons, elem_of_cons.
    destruct (d !! f) as [v|]; [|injection Hrun as <- <-; by left].
    unfold mret, action_ret, find_one_and_replace, on_collection in Hrun.
    destruct (replace_upsert _ _ _ (docs w)) as [l|err] eqn:Hl;
      [|injection Hrun as <- <-; by left].
    destruct (IH _ Hrun e He) as [Hin|Hin]; [|by right; right].
    cbn [set_docs docs snd] in Hin.
    destruct (replace_upsert_elem _ _ _ _ _ Hl e Hin); [right|]; by left.
Qed.

Lemma stamp_all_keys_plain cfg f n l :
  f ≠ "storage_time" → f ≠ "storage_type" →
  (∀ d, to_mongo d !! f = d !! f) →
  (λ x, field x f) <$> (to_mongo <$> stamp_all utcnow cfg n l) =
  (λ x, field x f) <$> l.
Proof.
  intros Hf Hf' Hser. revert n. induction l as [|d l IH]; intros n; [done|].
  cbn [stamp_all]. rewrite !fmap_cons. f_equal; [|apply IH].
  unfold field. rewrite Hser, stamp_lookup by done. by rewrite decide_False.
Qed.

Lemma save_clear_elem cfg b w :
  clear_before_add cfg = true →
  truthy_batch (Some b) = true →
  ∀ e, e ∈ docs (save to_mongo utcnow cfg (Some b) w).2 →
       e ∈ to_mongo <$> stamp_all utcnow cfg (clock w) (entries b).
Proof.
  intros Hclear Hb e. pose proof (entries_truthy b Hb) as Hne.
  destruct (truthy_str (get_unique_key cfg)) eqn:Hk.
  - unfold save. rewrite Hclear, Hk.
    unfold mbind at 1, action_bind. rewrite stage_truthy by done.
    unfold mbind at 1, action_bind, get_data at 1. cbn [data].
    rewrite bool_decide_false by done.
    unfold mbind at 1, action_bind, decorate_data.
    cbn [data docs clock heap].
    unfold mbind at 1, action_bind, when, empty, set_docs.
    cbn [data docs clock heap].
    unfold mbind at 1, action_bind.
    unfold mbind at 1, action_bind, get_data. cbn [data].
    destruct (for_each _ _ _) as [r w'] eqn:Hrun.
    intros He.
    destruct (save_loop_elem _ _ _ _ _ _ Hrun e) as [Hin|Hin];
      [by destruct r as [[]|]|by apply elem_of_nil in Hin|done].
  - rewrite save_unkeyed, Hclear by done. by cbn.
Qed.

(** *** Loading *)

(** The local name [query_object] ends up referring to a dictionary with
    the contents of the caller's; it is the caller's own dictionary exactly
    when that one is not empty. *)
Lemma bind_query_object_spec query_object w :
  ∃ l w1,
    bind_query_object query_object w = (Ok l, w1) ∧
    heap w1 !! l = Some (caller_query w query_object) ∧
    data w1 = data w ∧ docs w1 = docs w ∧ clock w1 = clock w ∧
    (∀ l0 q, query_object = Some l0 → heap w !! l0 = Some q →
       if decide (q = ∅) then l ≠ l0 ∧ heap w1 !! l0 = Some q
       else l = l0 ∧ heap w1 = heap w).
Proof.
  unfold bind_query_object, caller_query.
  set (l1 := fresh (dom (heap w))).
  assert (heap w !! l1 = None) as Hfresh
    by (apply not_elem_of_dom, is_fresh).
  destruct query_object as [l0|].
  - case_bool_decide as He.
    + exists l1. eexists. split; [done|]. cbn [heap data docs clock].
      rewrite lookup_insert_eq, He. split_and!; try done.
      intros ? q [= <-] Hq. rewrite Hq in He. simpl in He. subst q.
      rewrite decide_True by done.
      assert (l1 ≠ l0) by congruence.
      by rewrite lookup_insert_ne.
    + exists l0, w. split; [done|].
      destruct (heap w !! l0) as [q0|] eqn:Hq0; [|done].
      split_and!; try done.
      intros ? q [= <-] Hq. rewrite Hq0 in Hq. injection Hq as <-.
      by rewrite decide_False by exact He.
  - exists l1. eexists. split; [done|]. cbn [heap data docs clock].
    rewrite lookup_insert_eq. split_and!; done.
Qed.

(** [load] never raises.  It returns what the cursor yields for the
    effective query, and leaves that query in the dictionary its local name
    refers to. *)
Lemma load_spec cfg query_object limit order_by sort_order override_ttl w :
  let now := utcnow (clock w) in
  let q := effective_query cfg now override_ttl
             (caller_query w query_object) in
  let res := cursor_result limit order_by sort_order (find q (docs w)) in
  ∃ w',
    load utcnow cfg query_object limit order_by sort_order override_ttl w =
      (Ok res, w') ∧
    docs w' = docs w ∧ data w' = res ∧
    (∀ l0 q0, query_object = Some l0 → heap w !! l0 = Some q0 →
       heap w' !! l0 =
         Some (if decide (q0 = ∅) then q0
               else effective_query cfg now override_ttl q0)).
Proof.
  intros now q res. subst res q.
  destruct (bind_query_object_spec query_object (clear_data w).2)
    as (l & w1 & Hbind & Hl & Hd1 & Hdocs1 & Hc1 & Hcaller).
  unfold load, effective_query, ttl_used.
  set (ttl := if negb (truthy_num override_ttl) then get_ttl cfg
              else override_ttl).
  set (q0 := caller_query w query_object) in *.
  unfold mbind at 1, action_bind at 1, clear_data at 1, set_data at 1.
  unfold mbind at 1, action_bind at 1.
  unfold clear_data, set_data in Hbind. cbn [snd] in Hbind. rewrite Hbind.
  unfold mbind at 1, action_bind at 1, deref at 1.
  change (caller_query (clear_data w).2 query_object) with q0 in Hl.
  rewrite Hl. cbn [default from_option id].
  set (c1 := truthy_num ttl && bool_decide (q0 !! "storage_time" = None)).
  set (q1 := if c1
             then <["storage_time" := Gte (VTime (now - default 0 ttl))]> q0
             else q0).
  assert (∃ w2, when c1
            (now ← read_clock utcnow;
             dict_update l "storage_time"
               (Gte (VTime (now - default 0 ttl)))) w1 = (Ok (), w2) ∧
            heap w2 = <[l := q1]> (heap w1) ∧
            docs w2 = docs w1 ∧ data w2 = data w1)
    as (w2 & Hw2 & Hh2 & Hdocs2 & Hd2).
  { subst q1. destruct c1; cbn [when].
    - unfold mbind, action_bind, read_clock, dict_update.
      eexists. split; [done|]. cbn [heap docs data].
      rewrite Hl, Hc1. done.
    - exists w1. split_and!; try done. by rewrite insert_id. }
  unfold mbind at 1, action_bind at 1.
  rewrite Hw2.
  set (c2 := truthy_str (get_unique_type cfg)).
  set (q2 := if c2 then <["storage_type" := Is (storage_type cfg)]> q1
             else q1).
  assert (∃ w3, when c2
            (dict_update l "storage_type" (Is (storage_type cfg))) w2 =
              (Ok (), w3) ∧
            heap w3 = <[l := q2]> (heap w1) ∧
            docs w3 = docs w1 ∧ data w3 = data w1)
    as (w3 & Hw3 & Hh3 & Hdocs3 & Hd3).
  { subst q2. destruct c2; cbn [when].
    - unfold dict_update. eexists. split; [done|]. cbn [heap docs data].
      rewrite Hh2, lookup_insert_eq. cbn [default from_option id].
      by rewrite insert_insert_eq.
    - exists w2. split_and!; done. }
  unfold mbind at 1, action_bind at 1. rewrite Hw3.
  unfold mbind at 1, action_bind at 1, deref.
  rewrite Hh3, lookup_insert_eq. cbn [default from_option id].
  unfold mbind at 1, action_bind at 1, get_docs.
  unfold mbind at 1, action_bind at 1, get_data.
  unfold mbind at 1, action_bind at 1, set_data.
  rewrite Hdocs3, Hdocs1, Hd3, Hd1. cbn [clear_data set_data snd data docs].
  rewrite app_nil_l.
  eexists. split; [done|]. cbn [heap docs data]. split_and!; try done.
  intros l0 q [= ->] Hq. specialize (Hcaller l0 q eq_refl Hq).
  rewrite Hh3.
  destruct (decide (q = ∅)) as [->|Hne].
  - destruct Hcaller as [Hll Hw1]. by rewrite lookup_insert_ne.
  - destruct Hcaller as [-> Hw1]. rewrite lookup_insert_eq.
    subst q2 q1 c1 c2 q0. unfold caller_query. by rewrite Hq.
Qed.

End facts.

(** *** Query clauses *)

Lemma matches_lookup q d f c :
  matches q d = true → q !! f = Some c → clause_holds c (field d f) = true.
Proof.
  unfold matches. intros Hm%bool_decide_eq_true Hf. by apply (Hm f c).
Qed.

Lemma matches_insert q d f c :
  matches q d = true → clause_holds c (field d f) = true →
  matches (<[f := c]> q) d = true.
Proof.
  unfold matches. intros Hm%bool_decide_eq_true Hc.
  apply bool_decide_eq_true. by apply map_Forall_insert_2.
Qed.

Lemma gte_time_holds t st :
  clause_holds (Gte (VTime t)) (VTime st) = true ↔ t ≤ st.
Proof.
  unfold clause_holds. cbn [bson_rank].
  rewrite (bool_decide_true (3 = 3)) by done. cbn [andb].
  by rewrite bool_decide_eq_true, bson_le_time.
Qed.

Lemma ttl_used_selected cfg override_ttl T' :
  override_ttl = Some T' ∨
    (truthy_num override_ttl = false ∧ get_ttl cfg = Some T') →
  T' ≠ 0 →
  ttl_used cfg override_ttl = Some T'.
Proof.
  unfold ttl_used. intros [->|[-> ->]] HT; [|done].
  simpl. by rewrite bool_decide_true.
Qed.




(** *** Saving into a collection that is emptied first *)

(** C5, as amended.  A [save] of a non-empty batch on a collection with
    [clear_before_add] deletes what was stored before, so that afterwards
    every stored entry is the stored form of an entry of the batch.  When the
    collection is unkeyed, or keyed on ["id"] with pairwise distinct ids in
    the batch, the call succeeds and the collection holds exactly the stored
    forms of the batch, in order.  (A keyed collection keeps one entry per
    key value.) *)
Theorem save_clear_before_add
    (to_mongo : doc → doc) (utcnow : nat → Z) cfg b w :
  clear_before_add cfg = true →
  truthy_batch (Some b) = true →
  let written := to_mongo <$> stamp_all utcnow cfg (clock w) (entries b) in
  let after := save to_mongo utcnow cfg (Some b) w in
  (∀ e, e ∈ docs after.2 → e ∈ written) ∧
  (truthy_str (get_unique_key cfg) = false →
   after.1 = Ok true ∧ docs after.2 = written) ∧
  (get_unique_key cfg = Some "id" →
   (∀ d, to_mongo d !! "id" = d !! "id") →
   Forall (λ d, is_Some (d !! "id")) (entries b) →
   NoDup ((λ d, field d "id") <$> entries b) →
   after.1 = Ok true ∧ docs after.2 = written).
Proof.
  intros Hclear Hb written after. split_and!.
  - by apply save_clear_elem.
  - intros Hk. subst after. rewrite save_unkeyed, Hclear by done. done.
  - intros Hk Hser Hkeys Hnd. subst after.
    rewrite save_keyed_id, Hclear; try done; [|rewrite Hclear; apply NoDup_nil_2].
    cbn [fst snd docs]. split; [done|].
    apply upserts_fresh. rewrite app_nil_l.
    by rewrite stamp_all_keys_plain.
Qed.

(** *** Writing the same batch twice *)

(** C9, as amended.  On a keyed collection, writing a non-empty batch whose
    entries carry the unique key twice in succession leaves the model in the
    state that writing it once, at the time of the second call, would leave
    it in: [update] for any unique key, [save] when the unique key is
    ["id"] or the collection is emptied before each save.  (The entries are
    stamped anew by the second call, so their [storage_time] is that of the
    second call, not of the first.) *)
Theorem write_twice_is_write_later
    (to_mongo : doc → doc) (utcnow : nat → Z) cfg f b w :
  get_unique_key cfg = Some f →
  f ≠ "" →
  f ≠ "storage_time" →
  (∀ d, to_mongo d !! f = d !! f) →
  truthy_batch (Some b) = true →
  Forall (λ d, is_Some (d !! f)) (entries b) →
  index_ok (Some f) (docs w) →
  let n := length (entries b) in
  update to_mongo utcnow cfg (Some b)
    (update to_mongo utcnow cfg (Some b) w).2 =
  update to_mongo utcnow cfg (Some b) (later n w) ∧
  (f = "id" ∨ clear_before_add cfg = true →
   save to_mongo utcnow cfg (Some b)
     (save to_mongo utcnow cfg (Some b) w).2 =
   save to_mongo utcnow cfg (Some b) (later n w)).
Proof.
  intros Hk Hf Htime Hser Hb Hkeys Hok n.
  assert (update to_mongo utcnow cfg (Some b)
            (update to_mongo utcnow cfg (Some b) w).2 =
          update to_mongo utcnow cfg (Some b) (later n w)) as Hupd.
  { rewrite (update_keyed to_mongo utcnow cfg f b w) by done.
    cbn [snd].
    rewrite !(update_keyed to_mongo utcnow cfg f); try done; cbn [docs].
    - unfold later. cbn [data docs clock heap]. fold n.
      do 2 f_equal.
      apply upserts_twice, stamp_all_keys; done.
    - by apply upserts_index_ok. }
  split; [done|]. intros Hsave.
  destruct (clear_before_add cfg) eqn:Hclear.
  - destruct (save_clock_heap to_mongo utcnow cfg b w Hb)
      as (r & w1 & -> & Hc & Hh).
    by apply save_clear_indep.
  - destruct Hsave as [->|?]; [|done].
    rewrite !(save_as_update to_mongo utcnow cfg) by done.
    rewrite <- Hupd.
    by destruct (update to_mongo utcnow cfg (Some b) w) as [[[]|e] w1].
Qed.

(** *** Empty batches *)

(** C6, as amended.  With nothing staged in [self.data], a [save] or an
    [update] called without entries (no argument, an empty list or an empty
    dictionary) raises and leaves the whole state, and so the stored
    contents, unchanged.  The exception is the "no data" one, except that
    [update] on a collection without unique key raises the configuration
    error, which it checks first. *)
Theorem empty_batch_nothing_staged
    (to_mongo : doc → doc) (utcnow : nat → Z) cfg data_arg w :
  truthy_batch data_arg = false →
  data w = [] →
  save to_mongo utcnow cfg data_arg w = (Raise NoDataError, w) ∧
  update to_mongo utcnow cfg data_arg w =
    (Raise (if get_unique_key cfg is Some _ then NoDataError
            else ConfigurationError), w).
Proof.
  intros Harg Hdata. split.
  - by apply save_nothing.
  - by apply update_nothing.
Qed.

(** *** Concrete runs *)

(** C1 at the failing input: the sprint collection, keyed on [sprint_id],
    holds [{sprint_id: 7, points: 5}]; [save([{sprint_id: 7, points: 8}])]
    looks for a document whose ["id"] is 7, finds none, tries to insert and
    is refused by the unique index.  The stored entry is not replaced. *)
Theorem save_colliding_key_refused :
  let w := one_sprint_stored in
  let r := save id hourly sprints (Some (Many [sprint7 8])) w in
  (λ e, field e "points") <$> docs w = [VInt 5] ∧
  r.1 = Raise DuplicateKeyError ∧
  docs r.2 = docs w.
Proof. vm_compute. done. Qed.

(** C7 at the failing input: on the same collection and batch, [update]
    replaces the stored entry while [save] (the collection does not clear
    before adding) raises and leaves it. *)
Theorem update_and_save_differ :
  let w := one_sprint_stored in
  let u := update id hourly sprints (Some (Many [sprint7 8])) w in
  let s := save id hourly sprints (Some (Many [sprint7 8])) w in
  clear_before_add sprints = false ∧
  u.1 = Ok () ∧ (λ e, field e "points") <$> docs u.2 = [VInt 8] ∧
  s.1 = Raise DuplicateKeyError ∧
  (λ e, field e "points") <$> docs s.2 = [VInt 5].
Proof. vm_compute. done. Qed.



(** Two entries with the same id in one batch: only the second is kept. *)
Lemma same_key_twice_in_batch :
  ¬ Stated.holds_exactly_the_batch id hourly pulls_latest
      (Many [pull 1 2; pull 1 3]) fresh_world.
Proof.
  intros Hclaim%Permutation_length. vm_compute in Hclaim. done.
Qed.

(** After [update([{sprint_id: 7, points: 5}])] the entry is still staged:
    an [update] with an empty list writes it again. *)
Lemma empty_batch_writes_staged :
  ¬ Stated.empty_batch_fails id hourly sprints one_sprint_stored.
Proof. intros (_ & _ & Hclaim & _). vm_compute in Hclaim. done. Qed.

(** The second call stamps the entry anew. *)
Lemma second_update_restamps :
  ¬ Stated.update_idempotent id hourly sprints (Many [sprint7 5]) fresh_world.
Proof. intros Hclaim. vm_compute in Hclaim. done. Qed.


(** *** The amended properties on concrete runs *)




Lemma save_clear_before_add_witness :
  clear_before_add pulls_latest = true ∧
  truthy_batch (Some (Many [pull 1 2; pull 2 3])) = true ∧
  (save id hourly pulls_latest (Some (Many [pull 1 2; pull 2 3]))
     one_pull_stored).1 = Ok true ∧
  docs (save id hourly pulls_latest (Some (Many [pull 1 2; pull 2 3]))
          one_pull_stored).2 =
    [stamp pulls_latest 3600 (pull 1 2); stamp pulls_latest 7200 (pull 2 3)].
Proof.
  assert (clear_before_add pulls_latest = true) as H1 by reflexivity.
  assert (truthy_batch (Some (Many [pull 1 2; pull 2 3])) = true) as H2
    by reflexivity.
  assert (get_unique_key pulls_latest = Some "id") as H3 by reflexivity.
  assert (∀ d : doc, id d !! "id" = d !! "id") as H4 by done.
  assert (Forall (λ d : doc, is_Some (d !! "id"))
            (entries (Many [pull 1 2; pull 2 3]))) as H5
    by (repeat (apply Forall_cons_2; [eexists; vm_compute; reflexivity|]);
        apply Forall_nil_2).
  assert (NoDup ((λ d : doc, field d "id") <$>
                   entries (Many [pull 1 2; pull 2 3]))) as H6
    by (apply (bool_decide_unpack _); by vm_compute).
  destruct (save_clear_before_add id hourly pulls_latest
              (Many [pull 1 2; pull 2 3]) one_pull_stored H1 H2)
    as (_ & _ & Hid).
  destruct (Hid H3 H4 H5 H6) as [Hok Hdocs].
  split_and!; try done.
Defined.

Lemma empty_batch_nothing_staged_witness :
  truthy_batch (Some (Many [])) = false ∧
  data fresh_world = [] ∧
  save id hourly sprints (Some (Many [])) fresh_world =
    (Raise NoDataError, fresh_world) ∧
  update id hourly sprints (Some (Many [])) fresh_world =
    (Raise NoDataError, fresh_world).
Proof.
  assert (truthy_batch (Some (Many [])) = false) as H1 by reflexivity.
  assert (data fresh_world = []) as H2 by reflexivity.
  destruct (empty_batch_nothing_staged id hourly sprints
              (Some (Many [])) fresh_world H1 H2) as [Hsave Hupdate].
  split_and!; done.
Defined.

Lemma write_twice_is_write_later_witness :
  get_unique_key pulls = Some "id" ∧
  "id" ≠ "" ∧
  "id" ≠ "storage_time" ∧
  (∀ d : doc, id d !! "id" = d !! "id") ∧
  truthy_batch (Some (Many [pull 1 2])) = true ∧
  Forall (λ d : doc, is_Some (d !! "id")) (entries (Many [pull 1 2])) ∧
  index_ok (Some "id") (docs fresh_world) ∧
  update id hourly pulls (Some (Many [pull 1 2]))
    (update id hourly pulls (Some (Many [pull 1 2])) fresh_world).2 =
  update id hourly pulls (Some (Many [pull 1 2])) (later 1 fresh_world) ∧
  save id hourly pulls (Some (Many [pull 1 2]))
    (save id hourly pulls (Some (Many [pull 1 2])) fresh_world).2 =
  save id hourly pulls (Some (Many [pull 1 2])) (later 1 fresh_world).
Proof.
  assert (get_unique_key pulls = Some "id") as H1 by reflexivity.
  assert ("id" ≠ "") as H2 by done.
  assert ("id" ≠ "storage_time") as H3 by done.
  assert (∀ d : doc, id d !! "id" = d !! "id") as H4 by done.
  assert (truthy_batch (Some (Many [pull 1 2])) = true) as H5
    by reflexivity.
  assert (Forall (λ d : doc, is_Some (d !! "id"))
            (entries (Many [pull 1 2]))) as H6
    by (apply Forall_singleton; eexists; vm_compute; reflexivity).
  assert (index_ok (Some "id") (docs fresh_world)) as H7
    by apply NoDup_nil_2.
  destruct (write_twice_is_write_later id hourly pulls "id"
              (Many [pull 1 2]) fresh_world H1 H2 H3 H4 H5 H6 H7)
    as [Hupdate Hsave].
  specialize (Hsave (or_introl eq_refl)).
  split_and!; assumption.
Defined.

End UaModelFacts.

(** ** Properties of the sprint history aggregation *)

Module SprintFacts.
Import UaSprintDataFetcher SprintData.

Lemma bind_ok {A B} (m : result A) (f : A → result B) a :
  m = Ok a → (m ≫= f) = f a.
Proof. by intros ->. Qed.

Lemma bind_inv {A B} (m : result A) (f : A → result B) b :
  (m ≫= f) = Ok b → ∃ a, m = Ok a ∧ f a = Ok b.
Proof. destruct m as [a|e]; [by exists a|done]. Qed.

Lemma issue_keys_not_point_keys key :
  key ∈ issue_keys → key ∉ point_keys.
Proof.
  intros Hi.
  assert (Forall (λ k, k ∉ point_keys) issue_keys) as Hall
    by (unfold issue_keys;
        repeat (apply Forall_cons_2;
                [apply (bool_decide_unpack _); by vm_compute|]);
        apply Forall_nil_2).
  by apply (proj1 (Forall_forall _ _) Hall).
Qed.

Section facts.
Context {F : Type} `{PyFloat F}.
Implicit Types (agg : gmap pykey (entry (F:=F))) (e : gmap string (slot (F:=F))).
Implicit Types (s v : jval (F:=F)).

Lemma as_key_int v id : as_key v = Ok (KInt id) → v = JInt id.
Proof. destruct v; simpl; intros [=]; by subst. Qed.

Lemma sprint_key_inv s id :
  sprint_key s = Ok (KInt id) →
  ∃ sprint, getitem s "sprint" = Ok sprint ∧
            getitem sprint "id" = Ok (JInt id).
Proof.
  unfold sprint_key.
  intros (sprint & Hs & (v & Hv & ->%as_key_int)%bind_inv)%bind_inv.
  by exists sprint.
Qed.

(** A snapshot whose tracked values can all be read. *)
Lemma tracked_reads s (val : string → F) :
  (∀ key, key ∈ tracked_keys → tracked_value s key = Ok (val key)) →
  ∃ s', add_points_added s = Ok s' ∧
        (∀ key, key ∈ point_keys → point_value s' key = Ok (val key)) ∧
        (∀ key, key ∈ issue_keys → issue_count s' key = Ok (val key)).
Proof.
  intros Hval.
  assert ("completedIssues" ∈ tracked_keys) as Hk
    by (apply (bool_decide_unpack _); by vm_compute).
  destruct (bind_inv _ _ _ (Hval _ Hk)) as (s' & Hs' & _).
  exists s'. split; [done|]. split; intros key Hkey.
  - assert (key ∈ tracked_keys) as Ht by (apply elem_of_app; by left).
    specialize (Hval key Ht). unfold tracked_value in Hval.
    rewrite Hs' in Hval. cbn in Hval. by rewrite bool_decide_true in Hval.
  - assert (key ∈ tracked_keys) as Ht by (apply elem_of_app; by right).
    specialize (Hval key Ht). unfold tracked_value in Hval.
    rewrite Hs' in Hval. cbn in Hval.
    by rewrite bool_decide_false in Hval
      by (by apply issue_keys_not_point_keys).
Qed.

Lemma write_all_lookup vals n ks e key :
  key ∈ ks ∨
    e !! key = Some (Stats (stats_at (λ j, vals j key) n)) →
  write_all vals n ks e !! key =
    Some (Stats (stats_at (λ j, vals j key) n)).
Proof.
  revert e. induction ks as [|k ks IH]; intros e Hkey.
  - destruct Hkey as [Hin|?]; [by apply elem_of_nil in Hin|done].
  - cbn [write_all foldl]. apply IH.
    destruct (decide (key = k)) as [->|Hne].
    + right. apply lookup_insert_eq.
    + destruct Hkey as [[?|?]%elem_of_cons|?]; [done|by left|].
      right. by rewrite lookup_insert_ne.
Qed.

(** The [if idx == 0 ... else ...] block computes the triple of index [n]
    from the one of index [n - 1]. *)
Lemma accumulate_run (v : nat → F) n agg id_prev id e key :
  agg !! KInt id = Some (PerSprint e) →
  (n ≠ 0%nat →
   ∃ e_prev, agg !! KInt id_prev = Some (PerSprint e_prev) ∧
             e_prev !! key = Some (Stats (stats_at v (n - 1)))) →
  accumulate n agg (JInt id_prev) (JInt id) key (v n) =
    Ok (<[KInt id := PerSprint (<[key := Stats (stats_at v n)]> e)]> agg).
Proof.
  intros He Hprev.
  unfold accumulate, store_stats, previous_running_sum, stats_at.
  unfold mbind, result_bind. cbn [as_key].
  destruct n as [|m].
  - rewrite !bool_decide_true by done. by rewrite He.
  - rewrite !bool_decide_false by done.
    destruct Hprev as (e_prev & Hagg & Hkey); [done|].
    rewrite Hagg, Hkey, He.
    by replace (S m - 1)%nat with m by lia.
Qed.

Lemma aggregate_keys_run vals read ks n s agg id_prev id e :
  agg !! KInt id = Some (PerSprint e) →
  (n ≠ 0%nat →
   id_prev ≠ id ∧
   ∃ e_prev, agg !! KInt id_prev = Some (PerSprint e_prev) ∧
             ∀ key, key ∈ ks →
               e_prev !! key =
                 Some (Stats (stats_at (λ j, vals j key) (n - 1)))) →
  (∀ key, key ∈ ks → read s key = Ok (vals n key)) →
  aggregate_keys read ks n s agg (JInt id_prev) (JInt id) =
    Ok (<[KInt id := PerSprint (write_all vals n ks e)]> agg).
Proof.
  revert agg e. induction ks as [|k ks IH]; intros agg e He Hprev Hread.
  - cbn. by rewrite insert_id.
  - cbn [aggregate_keys].
    rewrite (bind_ok _ _ (vals n k)) by (apply Hread; left).
    assert (n ≠ 0%nat →
            ∃ e_prev, agg !! KInt id_prev = Some (PerSprint e_prev) ∧
                      e_prev !! k =
                        Some (Stats (stats_at (λ j, vals j k) (n - 1))))
      as Hk.
    { intros Hn. destruct (Hprev Hn) as (_ & e_prev & Hagg & Hkeys).
      exists e_prev. split; [done|]. apply Hkeys. left. }
    rewrite (bind_ok _ _ _
      (accumulate_run (λ j, vals j k) n agg id_prev id e k He Hk)).
    rewrite (IH _ (<[k := Stats (stats_at (λ j, vals j k) n)]> e)).
    + by rewrite insert_insert_eq.
    + apply lookup_insert_eq.
    + intros Hn. destruct (Hprev Hn) as (Hne & e_prev & Hagg & Hkeys).
      split; [done|]. exists e_prev. split.
      * rewrite lookup_insert_ne by congruence. done.
      * intros key Hkey. apply Hkeys. by right.
    + intros key Hkey. apply Hread. by right.
Qed.

Lemma create_storage_run agg id sprint :
  (∀ k x, agg !! k = Some x → k = KStr "asc_order" ∨ ∃ m, x = PerSprint m) →
  ∃ agg' e,
    create_storage agg (JInt id) sprint = Ok agg' ∧
    agg' !! KInt id = Some (PerSprint e) ∧
    (∀ k, k ≠ KInt id → agg' !! k = agg !! k).
Proof.
  intros Hshape. unfold create_storage, mbind, result_bind. cbn [as_key].
  destruct (agg !! KInt id) as [x|] eqn:Hx.
  - destruct (Hshape _ _ Hx) as [?|[m ->]]; [done|].
    by exists agg, m.
  - eexists _, _. split; [done|]. split; [apply lookup_insert_eq|].
    intros k Hk. by rewrite lookup_insert_ne.
Qed.

(** One iteration establishes the invariant for the next index. *)
Lemma iteration_run ids vals n s agg _id id :
  NoDup ids →
  ids !! n = Some id →
  sprint_key s = Ok (KInt id) →
  (∀ key, key ∈ tracked_keys → tracked_value s key = Ok (vals n key)) →
  loop_invariant ids vals n agg _id →
  ∃ agg', iteration n s agg _id = Ok (agg', JInt id) ∧
          loop_invariant ids vals (S n) agg' (JInt id).
Proof.
  intros Hnd Hn Hkey Hvals (Hasc & Hshape & Hent & id_prev & -> & Hlast).
  destruct (sprint_key_inv _ _ Hkey) as (sprint & Hs & Hid).
  destruct (tracked_reads _ _ Hvals) as (s' & Hadd & Hpoints & Hissues).
  unfold iteration.
  rewrite (bind_ok _ _ _ Hs), (bind_ok _ _ _ Hid).
  unfold append_asc_order at 1. rewrite Hasc.
  set (agg1 := <[KStr "asc_order" :=
                   AscOrder ((JInt <$> take n ids) ++ [JInt id])]> agg).
  cbn [mbind result_bind].
  destruct (create_storage_run agg1 id sprint)
    as (agg2 & e0 & Hcreate & He0 & Hagg2).
  { intros k x. subst agg1. destruct (decide (k = KStr "asc_order")) as [->|?];
      [by left|]. rewrite lookup_insert_ne by done. apply Hshape. }
  rewrite (bind_ok _ _ _ Hcreate), (bind_ok _ _ _ Hadd).
  assert (n ≠ 0%nat →
          id_prev ≠ id ∧
          ∃ e_prev, agg !! KInt id_prev = Some (PerSprint e_prev) ∧
                    ∀ key, key ∈ tracked_keys →
                      e_prev !! key =
                        Some (Stats (stats_at (λ j, vals j key) (n - 1))))
    as Hprev.
  { intros Hn0. specialize (Hlast Hn0). split.
    - intros ->. pose proof (NoDup_lookup _ _ _ _ Hnd Hlast Hn). lia.
    - assert ("completedIssues" ∈ tracked_keys) as Hk
        by (apply (bool_decide_unpack _); by vm_compute).
      destruct (Hent (n - 1)%nat id_prev _ ltac:(lia) Hlast Hk)
        as (e_prev & He_prev & _).
      exists e_prev. split; [done|]. intros key Hkey'.
      destruct (Hent (n - 1)%nat id_prev _ ltac:(lia) Hlast Hkey')
        as (e' & He' & Hst).
      congruence. }
  assert (∀ k, k ≠ KInt id → k ≠ KStr "asc_order" → agg2 !! k = agg !! k)
    as Hother.
  { intros k Hk1 Hk2. rewrite Hagg2 by done. subst agg1.
    by rewrite lookup_insert_ne. }
  assert (n ≠ 0%nat →
          id_prev ≠ id ∧
          ∃ e_prev, agg2 !! KInt id_prev = Some (PerSprint e_prev) ∧
                    ∀ key, key ∈ point_keys →
                      e_prev !! key =
                        Some (Stats (stats_at (λ j, vals j key) (n - 1))))
    as Hprev_points.
  { intros Hn0. destruct (Hprev Hn0) as (Hne & e_prev & He_prev & Hkeys).
    split; [done|]. exists e_prev. split.
    - rewrite Hother; [done|congruence|done].
    - intros key Hk. apply Hkeys, elem_of_app. by left. }
  rewrite (bind_ok _ _ _
    (aggregate_keys_run vals point_value point_keys n s' agg2 id_prev id e0
       He0 Hprev_points Hpoints)).
  set (e1 := write_all vals n point_keys e0).
  set (agg3 := <[KInt id := PerSprint e1]> agg2).
  assert (n ≠ 0%nat →
          id_prev ≠ id ∧
          ∃ e_prev, agg3 !! KInt id_prev = Some (PerSprint e_prev) ∧
                    ∀ key, key ∈ issue_keys →
                      e_prev !! key =
                        Some (Stats (stats_at (λ j, vals j key) (n - 1))))
    as Hprev_issues.
  { intros Hn0. destruct (Hprev Hn0) as (Hne & e_prev & He_prev & Hkeys).
    split; [done|]. exists e_prev. split.
    - subst agg3. rewrite lookup_insert_ne by congruence.
      rewrite Hother; [done|congruence|done].
    - intros key Hk. apply Hkeys, elem_of_app. by right. }
  rewrite (bind_ok _ _ _
    (aggregate_keys_run vals issue_count issue_keys n s' agg3 id_prev id e1
       (lookup_insert_eq _ _ _) Hprev_issues Hissues)).
  set (e2 := write_all vals n issue_keys e1).
  eexists. split; [done|]. subst agg3. rewrite insert_insert_eq.
  split_and!.
  - rewrite lookup_insert_ne by done. rewrite Hagg2 by done. subst agg1.
    rewrite lookup_insert_eq. rewrite (take_S_r _ _ _ Hn), fmap_app. done.
  - intros k x. destruct (decide (k = KInt id)) as [->|Hk].
    + rewrite lookup_insert_eq. intros [= <-]. right. by eexists.
    + rewrite lookup_insert_ne by done. rewrite Hagg2 by done. subst agg1.
      destruct (decide (k = KStr "asc_order")) as [->|?]; [by left|].
      rewrite lookup_insert_ne by done. apply Hshape.
  - intros i id' key Hi Hid' Hk.
    destruct (decide (i = n)) as [->|Hne].
    + assert (id' = id) as -> by congruence.
      exists e2. split; [apply lookup_insert_eq|].
      subst e2 e1. apply write_all_lookup.
      apply elem_of_app in Hk as [Hk|Hk]; [right|by left].
      apply write_all_lookup. by left.
    + assert (id' ≠ id) as Hid_ne.
      { intros ->. by pose proof (NoDup_lookup _ _ _ _ Hnd Hid' Hn). }
      rewrite lookup_insert_ne by congruence.
      rewrite Hother; [|congruence|done].
      apply Hent; [lia|done..].
  - exists id. split; [done|]. intros _.
    by replace (S n - 1)%nat with n by lia.
Qed.

(** The loop, from any index on. *)
Lemma sprint_loop_run ids vals asc :
  Forall2 (λ s id, sprint_key s = Ok (KInt id)) asc ids →
  NoDup ids →
  (∀ i s key, asc !! i = Some s → key ∈ tracked_keys →
     tracked_value s key = Ok (vals i key)) →
  ∀ rest n agg _id,
    drop n asc = rest →
    (n + length rest = length asc)%nat →
    loop_invariant ids vals n agg _id →
    ∃ agg' _id',
      sprint_loop n rest agg _id = Ok agg' ∧
      loop_invariant ids vals (length asc) agg' _id'.
Proof.
  intros Hids Hnd Hvals rest.
  induction rest as [|s rest IH]; intros n agg _id Hdrop Hlen Hinv.
  - simpl in Hlen. replace (length asc) with n by lia.
    by exists agg, _id.
  - assert (asc !! n = Some s) as Hs.
    { rewrite <- (Nat.add_0_r n), <- lookup_drop, Hdrop. done. }
    destruct (Forall2_lookup_l _ _ _ _ _ Hids Hs) as (id & Hid & Hkey).
    destruct (iteration_run ids vals n s agg _id id Hnd Hid Hkey)
      as (agg1 & Hiter & Hinv1); [by eauto|done|].
    cbn [sprint_loop]. rewrite (bind_ok _ _ _ Hiter). cbn [fst snd].
    apply IH; [|simpl in Hlen; lia|done].
    rewrite (drop_S _ _ _ Hs) in Hdrop. by injection Hdrop.
Qed.

(** The aggregation of well-formed snapshots with pairwise distinct integer
    ids: it returns, lists the ids in ascending order, and holds under each
    id the triples of that index. *)
Lemma aggregate_run ids vals sprint_data :
  Forall2 (λ s id, sprint_key s = Ok (KInt id)) (reverse sprint_data) ids →
  NoDup ids →
  (∀ i s key, reverse sprint_data !! i = Some s → key ∈ tracked_keys →
     tracked_value s key = Ok (vals i key)) →
  ∃ agg,
    _aggregate_sprint_history_data sprint_data = Ok agg ∧
    agg !! KStr "asc_order" = Some (AscOrder (JInt <$> ids)) ∧
    ∀ i id key,
      ids !! i = Some id → key ∈ tracked_keys →
      ∃ e, agg !! KInt id = Some (PerSprint e) ∧
           e !! key = Some (Stats (stats_at (λ j, vals j key) i)).
Proof.
  intros Hids Hnd Hvals.
  destruct (sprint_loop_run ids vals (reverse sprint_data) Hids Hnd Hvals
              (reverse sprint_data) 0%nat
              {[ KStr "asc_order" := AscOrder [] ]} (JInt 0))
    as (agg & _id & Hloop & Hasc & _ & Hent & _).
  - done.
  - done.
  - split_and!.
    + by rewrite lookup_singleton_eq.
    + intros k x [<- _]%lookup_singleton_Some. by left.
    + intros i ? ? Hi. lia.
    + by exists 0.
  - exists agg. split; [done|].
    pose proof (Forall2_length _ _ _ Hids) as Hlen.
    rewrite Hlen, firstn_all in Hasc. split; [done|].
    intros i id key Hi Hk. apply (Hent i); [|done..].
    rewrite Hlen. by eapply lookup_lt_Some.
Qed.

(** The assignment of [pointsAddedDuringSprintSum] leaves the other
    contents of the snapshot as they were. *)
Lemma add_points_added_contents s s' contents key :
  add_points_added s = Ok s' →
  getitem s "contents" = Ok contents →
  key ≠ "pointsAddedDuringSprintSum" →
  ∃ contents', getitem s' "contents" = Ok contents' ∧
               getitem contents' key = getitem contents key.
Proof.
  unfold add_points_added. intros Hadd Hc Hkey.
  rewrite Hc in Hadd. cbn [mbind result_bind] in Hadd.
  apply bind_inv in Hadd as (added & _ & Hadd).
  apply bind_inv in Hadd as (issues & _ & Hadd).
  apply bind_inv in Hadd as (points & _ & Hadd).
  apply bind_inv in Hadd as (c' & Hset & Hadd).
  destruct contents as [| | | | |d]; try done.
  injection Hset as <-.
  destruct s as [| | | | |m]; try done.
  injection Hadd as <-.
  eexists. split; [cbn; by rewrite lookup_insert_eq|].
  cbn. by rewrite lookup_insert_ne.
Qed.

(** *** Reading a snapshot described as data *)

Lemma describes_sprint_key s (r : row) :
  describes s r → sprint_key s = Ok (KInt (row_id r)).
Proof.
  intros (sd & sp & c & -> & Hsp & Hid & _).
  unfold sprint_key. cbn. rewrite Hsp. cbn. by rewrite Hid.
Qed.

Lemma number_of_text_read text (v : F) :
  number_of_text text = Some v →
  py_float (F:=F)
    (if is_null_text (F:=F) (JStr text) then JInt 0 else JStr text) = Ok v.
Proof.
  unfold number_of_text, is_null_text. case_bool_decide.
  - by intros [= <-].
  - intros Hv. cbn. by rewrite Hv.
Qed.

Lemma story_points_read p (x : F) :
  story_points p = Some x →
  py_float (if truthy p then p else JFloat (float_of_Z 0)) = Ok x.
Proof.
  destruct p as [|z|y| | |]; try done; cbn; intros [= <-].
  - case_bool_decide as Hz; [done|].
    assert (z = 0) as -> by lia. done.
  - by destruct (float_is_zero y).
Qed.

(** The loop over the added issues sums their story points from the
    left. *)
Lemma sum_added_points_run acc l (points : list F) :
  Forall2 has_points l points →
  sum_added_points acc l = Ok (foldl fadd acc points).
Proof.
  intros Hl. revert acc.
  induction Hl as [|issue x l points (i & f & p & -> & Hf & Hp & Hx) _ IH];
    intros acc; [done|].
  cbn [sum_added_points foldl].
  assert (deep_get (JDict i) ["fields"; "customfield_10002"] = p) as ->.
  { cbn [deep_get]. rewrite Hf. cbn. by rewrite Hp. }
  rewrite (story_points_read p x Hx). cbn. apply IH.
Qed.

Lemma add_points_added_run s (r : row) :
  describes s r →
  ∃ sd c,
    s = JDict sd ∧ sd !! "contents" = Some (JDict c) ∧
    add_points_added s =
      Ok (JDict
            (<["contents" :=
                 JDict
                   (<["pointsAddedDuringSprintSum" :=
                        JDict
                          {[ "text" := JStr (str_of_float (points_added r));
                             "value" := JFloat (points_added r) ]}]> c)]>
               sd)).
Proof.
  intros (sd & sp & c & -> & _ & _ & Hc & _ & Hissues & Hpoints).
  exists sd, c. split; [done|]. split; [done|].
  assert ("issueKeysAddedDuringSprint" ∈ issue_keys) as Hadded
    by (apply (bool_decide_unpack _); by vm_compute).
  unfold add_points_added. cbn [getitem]. rewrite Hc.
  cbn [mbind result_bind getitem]. rewrite (Hissues _ Hadded).
  cbn [mbind result_bind py_iter].
  rewrite (sum_added_points_run _ _ _ Hpoints).
  by cbn [mbind result_bind setitem].
Qed.

(** The aggregation reads from a described snapshot, for every tracked
    field, the number the field stands for. *)
Lemma described_value s (r : row) key (v : F) :
  describes s r → key ∈ tracked_keys → field_value r key = Some v →
  tracked_value s key = Ok v.
Proof.
  intros Hs Hkey Hv.
  destruct (add_points_added_run s r Hs) as (sd & c & -> & Hc & Hadd).
  destruct Hs as (sd' & sp & c' & [= <-] & _ & _ & Hc' & Hest & Hissues & _).
  rewrite Hc in Hc'. injection Hc' as <-.
  unfold tracked_value. rewrite Hadd. cbn [mbind result_bind].
  unfold point_value, issue_count. cbn [getitem].
  rewrite lookup_insert_eq. cbn [mbind result_bind getitem].
  unfold field_value in Hv.
  unfold tracked_keys, point_keys, issue_keys in Hkey. cbn [app] in Hkey.
  repeat (apply elem_of_cons in Hkey as [->|Hkey]);
    [..|by apply elem_of_nil in Hkey].
  1-3: rewrite bool_decide_true
         by (apply (bool_decide_unpack _); by vm_compute);
       rewrite lookup_insert_ne by done;
       rewrite bool_decide_true in Hv
         by (apply (bool_decide_unpack _); by vm_compute);
       (edestruct Hest as (est & -> & Htext);
        [apply (bool_decide_unpack _); by vm_compute|]);
       cbn [mbind result_bind getitem]; rewrite Htext;
       cbn [mbind result_bind]; by apply number_of_text_read.
  - rewrite bool_decide_true
      by (apply (bool_decide_unpack _); by vm_compute).
    rewrite lookup_insert_eq.
    rewrite bool_decide_false in Hv
      by (apply (bool_decide_unpack _); by vm_compute).
    rewrite bool_decide_true in Hv by done.
    cbn [mbind result_bind getitem]. rewrite lookup_insert_eq.
    cbn [mbind result_bind]. by apply number_of_text_read.
  - rewrite bool_decide_false
      by (apply (bool_decide_unpack _); by vm_compute).
    rewrite lookup_insert_ne by done.
    rewrite bool_decide_false in Hv
      by (apply (bool_decide_unpack _); by vm_compute).
    rewrite bool_decide_false in Hv by done.
    rewrite bool_decide_true in Hv
      by (apply (bool_decide_unpack _); by vm_compute).
    rewrite Hissues by (apply (bool_decide_unpack _); by vm_compute).
    cbn [mbind result_bind py_len]. by injection Hv as <-.
  - rewrite bool_decide_false
      by (apply (bool_decide_unpack _); by vm_compute).
    rewrite lookup_insert_ne by done.
    rewrite bool_decide_false in Hv
      by (apply (bool_decide_unpack _); by vm_compute).
    rewrite bool_decide_false in Hv by done.
    rewrite bool_decide_true in Hv
      by (apply (bool_decide_unpack _); by vm_compute).
    rewrite Hissues by (apply (bool_decide_unpack _); by vm_compute).
    cbn [mbind result_bind py_len]. by injection Hv as <-.
  - rewrite bool_decide_false
      by (apply (bool_decide_unpack _); by vm_compute).
    rewrite lookup_insert_ne by done.
    rewrite bool_decide_false in Hv
      by (apply (bool_decide_unpack _); by vm_compute).
    rewrite bool_decide_false in Hv by done.
    rewrite bool_decide_true in Hv
      by (apply (bool_decide_unpack _); by vm_compute).
    rewrite Hissues by (apply (bool_decide_unpack _); by vm_compute).
    cbn [mbind result_bind py_len]. by injection Hv as <-.
  - rewrite bool_decide_false
      by (apply (bool_decide_unpack _); by vm_compute).
    rewrite lookup_insert_ne by done.
    rewrite bool_decide_false in Hv
      by (apply (bool_decide_unpack _); by vm_compute).
    rewrite bool_decide_false in Hv by done.
    rewrite bool_decide_true in Hv
      by (apply (bool_decide_unpack _); by vm_compute).
    rewrite Hissues by (apply (bool_decide_unpack _); by vm_compute).
    cbn [mbind result_bind py_len]. by injection Hv as <-.
Qed.

(** The aggregation of described snapshots with pairwise distinct ids. *)
Lemma described_run (rows : list row) (vals : nat → string → F)
    sprint_data :
  Forall2 describes (reverse sprint_data) rows →
  NoDup (row_id <$> rows) →
  (∀ i r key, rows !! i = Some r → key ∈ tracked_keys →
     field_value r key = Some (vals i key)) →
  ∃ agg,
    _aggregate_sprint_history_data sprint_data = Ok agg ∧
    agg !! KStr "asc_order" = Some (AscOrder (JInt <$> (row_id <$> rows))) ∧
    ∀ i r key,
      rows !! i = Some r → key ∈ tracked_keys →
      ∃ e, agg !! KInt (row_id r) = Some (PerSprint e) ∧
           e !! key = Some (Stats (stats_at (λ j, vals j key) i)).
Proof.
  intros Hrows Hnd Hvals.
  destruct (aggregate_run (row_id <$> rows) vals sprint_data)
    as (agg & Hrun & Hasc & Hent).
  - apply Forall2_fmap_r.
    eapply Forall2_impl; [exact Hrows|].
    intros s r. apply describes_sprint_key.
  - done.
  - intros i s key Hs Hkey.
    destruct (Forall2_lookup_l _ _ _ _ _ Hrows Hs) as (r & Hr & Hsr).
    apply (described_value s r); [done..|]. by apply (Hvals i).
  - exists agg. split; [done|]. split; [done|].
    intros i r key Hr Hkey. apply (Hent i); [|done].
    by rewrite list_lookup_fmap, Hr.
Qed.

Lemma total_ext (f g : nat → F) n :
  (∀ m, (m ≤ n)%nat → f m = g m) → total f n = total g n.
Proof.
  induction n as [|n IH]; intros Hfg; cbn [total].
  - by apply Hfg.
  - rewrite IH, (Hfg (S n)) by (intros; try apply Hfg; lia). done.
Qed.

(** *** What a run that returns has read *)

Lemma aggregate_keys_reads read ks idx s agg last_sprint_id _id agg' key :
  aggregate_keys read ks idx s agg last_sprint_id _id = Ok agg' →
  key ∈ ks → ∃ x, read s key = Ok x.
Proof.
  revert agg. induction ks as [|k ks IH]; intros agg; cbn [aggregate_keys].
  - by intros _ ?%elem_of_nil.
  - intros (current & Hread & (agg1 & _ & Hrest)%bind_inv)%bind_inv.
    intros [->|Hkey]%elem_of_cons; [by exists current|].
    by apply (IH agg1).
Qed.

Lemma iteration_reads idx s agg _id r key :
  iteration idx s agg _id = Ok r → key ∈ tracked_keys →
  ∃ x, tracked_value s key = Ok x.
Proof.
  unfold iteration. cbv zeta.
  intros (sprint & _ & (id & _ & (agg1 & _ & (agg2 & _ &
    (s' & Hadd & (agg3 & Hpoints & (agg4 & Hissues & _)%bind_inv)%bind_inv)
    %bind_inv)%bind_inv)%bind_inv)%bind_inv)%bind_inv.
  intros [Hkey|Hkey]%elem_of_app; unfold tracked_value; rewrite Hadd;
    cbn [mbind result_bind].
  - rewrite bool_decide_true by done.
    by apply (aggregate_keys_reads _ _ _ _ _ _ _ _ _ Hpoints).
  - rewrite bool_decide_false by (by apply issue_keys_not_point_keys).
    by apply (aggregate_keys_reads _ _ _ _ _ _ _ _ _ Hissues).
Qed.

Lemma sprint_loop_reads idx rest agg _id agg' s key :
  sprint_loop idx rest agg _id = Ok agg' →
  s ∈ rest → key ∈ tracked_keys →
  ∃ x, tracked_value s key = Ok x.
Proof.
  revert idx agg _id.
  induction rest as [|s0 rest IH]; intros idx agg _id; cbn [sprint_loop].
  - by intros _ ?%elem_of_nil.
  - intros (r & Hstep & Hrest)%bind_inv [->|Hs]%elem_of_cons Hkey.
    + by apply (iteration_reads _ _ _ _ _ _ Hstep).
    + by apply (IH _ _ _ Hrest).
Qed.

(** A field that is not there cannot be read. *)
Lemma unreadable_raises s key :
  unreadable s key → ∃ err, tracked_value s key = Raise err.
Proof.
  intros (sd & c & -> & Hc & Hcase).
  destruct (add_points_added (JDict sd)) as [s'|err] eqn:Hadd;
    [|by exists err; unfold tracked_value; rewrite Hadd].
  assert (key ≠ "pointsAddedDuringSprintSum" ∧
          (key ∈ estimate_keys ∨ key ∈ issue_keys)) as [Hne Hkind].
  { destruct Hcase as [[Hkey _]|[Hkey _]]; (split; [|by auto]);
      intros ->; revert Hkey; apply (bool_decide_unpack _); by vm_compute. }
  destruct (add_points_added_contents (JDict sd) s' (JDict c) key Hadd)
    as (c' & Hc' & Hsame); [by cbn; rewrite Hc|done|].
  unfold tracked_value. rewrite Hadd. cbn [mbind result_bind].
  unfold point_value, issue_count. rewrite Hc'. cbn [mbind result_bind].
  rewrite Hsame. cbn [getitem].
  destruct Hcase as [[Hkey Hest]|[Hkey Hlist]].
  - rewrite bool_decide_true.
    2: { revert Hkey. unfold estimate_keys, point_keys.
         rewrite !elem_of_cons. tauto. }
    destruct Hest as [->|[->|(est & -> & [Ht|Ht])]]; cbn; eauto;
      rewrite Ht; cbn; eauto.
  - rewrite bool_decide_false by (by apply issue_keys_not_point_keys).
    destruct Hlist as [->| ->]; cbn; eauto.
Qed.

End facts.



End SprintFacts.

(** ** The aggregation on concrete snapshots *)

Module SprintRuns.
Import UaSprintDataFetcher SprintData QFloat SprintExamples SprintRows
  SprintFacts.

Lemma Qdiv_one (x : Q) : fdiv x (float_of_Z 1) = x.
Proof.
  destruct x as [n d]. cbn. unfold Qdiv, Qmult, Qinv. cbn.
  f_equal; lia.
Qed.

Lemma issues_have_points (added : list Z) :
  Forall2 has_points (issue <$> added) (inject_Z <$> added).
Proof.
  induction added as [|z added IH]; [constructor|].
  rewrite !fmap_cons. constructor; [|done].
  exists {[ "fields" := JDict {[ "customfield_10002" := JInt z ]} ]},
         {[ "customfield_10002" := JInt z ]}, (JInt z).
  split; [reflexivity|]. split; [by vm_compute|].
  split; [by vm_compute|done].
Qed.

Lemma busy_described id completed finished added :
  describes (busy_snapshot id completed finished added)
    (busy_row id completed finished added).
Proof.
  exists {[ "sprint" := JDict {[ "id" := JInt id ]};
            "contents" := JDict (busy_contents completed finished added) ]},
         {[ "id" := JInt id ]},
         (busy_contents completed finished added).
  split; [reflexivity|]. split; [by vm_compute|]. split; [by vm_compute|].
  split; [by vm_compute|]. split_and!.
  - intros key Hkey. unfold estimate_keys in Hkey.
    repeat (apply elem_of_cons in Hkey as [->|Hkey]);
      [..|by apply elem_of_nil in Hkey].
    + exists {[ "text" := JStr completed ]}. split; by vm_compute.
    + exists {[ "text" := JStr "0.0" ]}. split; by vm_compute.
    + exists {[ "text" := JStr "null" ]}. split; by vm_compute.
  - intros key Hkey. unfold issue_keys in Hkey.
    repeat (apply elem_of_cons in Hkey as [->|Hkey]);
      [..|by apply elem_of_nil in Hkey]; by vm_compute.
  - apply issues_have_points.
Qed.

(** Every tracked field of every row of the example stands for a number. *)
Ltac read_rows :=
  let i := fresh "i" in
  let Hr := fresh "Hr" in
  let Hkey := fresh "Hkey" in
  intros i ? ? Hr Hkey;
  destruct i as [|[|[|i]]]; [injection Hr as <-..|discriminate Hr];
  unfold tracked_keys, point_keys, issue_keys in Hkey; cbn [app] in Hkey;
  repeat (apply elem_of_cons in Hkey as [->|Hkey]);
  try (by apply elem_of_nil in Hkey);
  vm_compute; reflexivity.





(** So does a JSON null where the text of an estimate is expected. *)
Lemma none_text_raises :
  _aggregate_sprint_history_data [snapshot_with_none] = Raise TypeError.
Proof. by vm_compute. Qed.

End SprintRuns.

(** ** Further properties of the cache store *)

Module UaModelMore.
Import UaModel UaNotions Examples UaModelFacts.

(** *** What an update stores *)

Lemma upsert_elem f d l e : e ∈ upsert f d l → e = d ∨ e ∈ l.
Proof.
  induction l as [|x l IH]; cbn [upsert].
  - intros ->%list_elem_of_singleton. by left.
  - case_bool_decide.
    + intros [->|?]%elem_of_cons; [by left|]. right. by right.
    + intros [->|He]%elem_of_cons; [right; by left|].
      destruct (IH He); [by left|]. right. by right.
Qed.

Lemma upsert_self f d l : d ∈ upsert f d l.
Proof.
  induction l as [|x l IH]; cbn [upsert]; [by left|].
  case_bool_decide; [by left|by right].
Qed.

Lemma upsert_other f d l x :
  x ∈ l → field x f ≠ field d f → x ∈ upsert f d l.
Proof.
  intros Hx Hne. induction l as [|y l IH];
    [by apply elem_of_nil in Hx|]. cbn [upsert].
  apply elem_of_cons in Hx as [->|Hx].
  - rewrite bool_decide_false by done. by left.
  - case_bool_decide; right; [done|by apply IH].
Qed.

Lemma upserts_elem f ds l e : e ∈ upserts f ds l → e ∈ l ∨ e ∈ ds.
Proof.
  revert l. induction ds as [|d ds IH]; intros l He; [by left|].
  cbn [upserts foldl] in He. apply IH in He as [He|He]; [|right; by right].
  apply upsert_elem in He as [->|He]; [right; by left|by left].
Qed.

Lemma upserts_other f ds l x :
  x ∈ l → field x f ∉ keys f ds → x ∈ upserts f ds l.
Proof.
  revert l. induction ds as [|d ds IH]; intros l Hx Hk; [done|].
  unfold keys in Hk. rewrite fmap_cons in Hk.
  apply not_elem_of_cons in Hk as [Hd Hk].
  cbn [upserts foldl]. apply IH; [|done]. by apply upsert_other.
Qed.

(** X2.  On a collection keyed on [f], an [update] with a non-empty batch
    whose entries carry [f] returns normally (it is never refused by the
    unique index) and stores only what was stored or is written; a stored
    document whose key is not written stays, and of the written entries with
    one key the last one is stored. *)
Theorem update_replaces_or_inserts
    (to_mongo : doc → doc) (utcnow : nat → Z) cfg f b w :
  get_unique_key cfg = Some f →
  f ≠ "" →
  (∀ d, to_mongo d !! f = d !! f) →
  truthy_batch (Some b) = true →
  Forall (λ d, is_Some (d !! f)) (entries b) →
  index_ok (Some f) (docs w) →
  let written := to_mongo <$> stamp_all utcnow cfg (clock w) (entries b) in
  let after := update to_mongo utcnow cfg (Some b) w in
  after.1 = Ok () ∧
  (∀ e, e ∈ docs after.2 → e ∈ docs w ∨ e ∈ written) ∧
  (∀ x, x ∈ docs w → field x f ∉ keys f written → x ∈ docs after.2) ∧
  (∀ earlier d later,
     written = earlier ++ d :: later →
     field d f ∉ keys f later →
     d ∈ docs after.2).
Proof.
  intros Hk Hf Hser Hb Hkeys Hok written after. subst after.
  rewrite (update_keyed to_mongo utcnow cfg f) by done.
  cbn [fst snd docs]. fold written. split_and!.
  - done.
  - apply upserts_elem.
  - intros x. apply upserts_other.
  - intros earlier d later -> Hlast. unfold upserts.
    rewrite foldl_app. cbn [foldl].
    apply (upserts_other f later); [apply upsert_self|done].
Qed.

(** *** Saving on a collection keyed on [id] *)

(** X4.  On a collection keyed on ["id"] that does not clear before adding,
    [save] does what [update] does: it leaves the same state and raises the
    same exception when it raises. *)
Theorem save_is_update_when_keyed_on_id
    (to_mongo : doc → doc) (utcnow : nat → Z) cfg data_arg w :
  get_unique_key cfg = Some "id" →
  clear_before_add cfg = false →
  (save to_mongo utcnow cfg data_arg w).2 =
    (update to_mongo utcnow cfg data_arg w).2 ∧
  same_outcome (save to_mongo utcnow cfg data_arg w).1
    (update to_mongo utcnow cfg data_arg w).1.
Proof.
  intros Hk Hclear. rewrite (save_as_update to_mongo utcnow cfg) by done.
  by destruct (update to_mongo utcnow cfg data_arg w) as [[[]|e] w'].
Qed.

(** *** Loading *)

Lemma effective_query_caller cfg now override_ttl q f c :
  q !! f = Some c →
  (f = "storage_type" → truthy_str (get_unique_type cfg) = false) →
  effective_query cfg now override_ttl q !! f = Some c.
Proof.
  intros Hq Hty. unfold effective_query.
  set (q1 := if _ && _ then _ else q).
  assert (q1 !! f = Some c) as Hq1.
  { subst q1. destruct (truthy_num _); [|done]. cbn [andb].
    case_bool_decide as Hfree; [|done].
    rewrite lookup_insert_ne; [done|]. intros <-. congruence. }
  destruct (truthy_str (get_unique_type cfg)) eqn:Hpart; [|done].
  rewrite lookup_insert_ne; [done|]. intros <-. by specialize (Hty eq_refl).
Qed.

Lemma effective_query_partition cfg now override_ttl q :
  truthy_str (get_unique_type cfg) = true →
  effective_query cfg now override_ttl q !! "storage_type" =
    Some (Is (storage_type cfg)).
Proof. intros Hty. unfold effective_query. rewrite Hty. apply lookup_insert_eq. Qed.


(** X7.  When the caller's query constrains [storage_time] itself, no TTL
    clause is added: with no limit, every stored entry that satisfies the
    caller's query (and has the collection's type, where it is partitioned)
    is returned, however old it is and whatever TTL is configured or
    passed. *)
Theorem caller_storage_time_replaces_ttl (utcnow : nat → Z) cfg query_object
    limit order_by sort_order override_ttl w c e :
  caller_query w query_object !! "storage_time" = Some c →
  e ∈ docs w →
  matches (caller_query w query_object) e = true →
  (truthy_str (get_unique_type cfg) = true →
   field e "storage_type" = storage_type cfg) →
  truthy_num limit = false →
  ∃ found w',
    load utcnow cfg query_object limit order_by sort_order override_ttl w =
      (Ok found, w') ∧
    e ∈ found.
Proof.
  intros Hc He Hm Hty Hlimit.
  destruct (load_spec utcnow cfg query_object limit order_by sort_order
              override_ttl w) as (w' & Hload & _).
  do 2 eexists. split; [exact Hload|].
  apply cursor_result_unlimited; [done|].
  apply list_elem_of_filter. split; [|done].
  unfold effective_query. rewrite Hc.
  rewrite (bool_decide_false (Some c = None)) by done.
  rewrite andb_false_r.
  destruct (truthy_str (get_unique_type cfg)); [|done].
  apply matches_insert; [done|].
  simpl. by rewrite bool_decide_true by (by apply Hty).
Qed.

Lemma caller_storage_time_replaces_ttl_witness :
  let asked : query := {[ "storage_time" := Gte (VTime 0) ]} in
  let w := {| data := []; docs := docs one_sprint_stored; clock := 10;
              heap := {[ 0%nat := asked ]} |} in
  caller_query w (Some 0%nat) !! "storage_time" = Some (Gte (VTime 0)) ∧
  stamp sprints 0 (sprint7 5) ∈ docs w ∧
  matches (caller_query w (Some 0%nat)) (stamp sprints 0 (sprint7 5)) = true ∧
  (truthy_str (get_unique_type sprints) = true →
   field (stamp sprints 0 (sprint7 5)) "storage_type" =
     storage_type sprints) ∧
  truthy_num None = false ∧
  hourly 10 - 7200 > 0 ∧
  ∃ found w',
    load hourly sprints (Some 0%nat) None None DESCENDING None w =
      (Ok found, w') ∧
    stamp sprints 0 (sprint7 5) ∈ found.
Proof.
  intros asked w.
  assert (caller_query w (Some 0%nat) !! "storage_time" =
            Some (Gte (VTime 0))) as H1 by reflexivity.
  assert (stamp sprints 0 (sprint7 5) ∈ docs w) as H2
    by (vm_compute; left).
  assert (matches (caller_query w (Some 0%nat))
            (stamp sprints 0 (sprint7 5)) = true) as H3
    by (vm_compute; reflexivity).
  assert (truthy_str (get_unique_type sprints) = true →
          field (stamp sprints 0 (sprint7 5)) "storage_type" =
            storage_type sprints) as H4 by (intros _; reflexivity).
  assert (truthy_num None = false) as H5 by reflexivity.
  assert (hourly 10 - 7200 > 0) as H6 by (vm_compute; reflexivity).
  split; [exact H1|]. split; [exact H2|]. split; [exact H3|].
  split; [exact H4|]. split; [exact H5|]. split; [exact H6|].
  exact (caller_storage_time_replaces_ttl hourly sprints (Some 0%nat) None
           None DESCENDING None w (Gte (VTime 0))
           (stamp sprints 0 (sprint7 5)) H1 H2 H3 H4 H5).
Defined.


(** *** Writing and [has_data] *)

Lemma action_bind_inv {A B} (m : action A) (k : A → action B) w b w' :
  (m ≫= k) w = (Ok b, w') →
  ∃ a w1, m w = (Ok a, w1) ∧ k a w1 = (Ok b, w').
Proof.
  unfold mbind, action_bind. destruct (m w) as [[a|e] w1]; [eauto|done].
Qed.

Lemma replace_upsert_nonempty index q d l l' :
  replace_upsert index q d l = Ok l' → l' ≠ [].
Proof.
  unfold replace_upsert, insert_one.
  destruct (list_find _ l) as [[i y]|] eqn:Hfind.
  - destruct (violates index d (delete i l)); [done|]. intros [= <-].
    apply list_find_Some in Hfind as (Hi & _).
    apply lookup_lt_Some in Hi. intros Hnil.
    apply (f_equal length) in Hnil. rewrite length_insert in Hnil.
    simpl in Hnil. lia.
  - destruct (violates index d l); [done|]. intros [= <-].
    by intros [_ [=]]%app_eq_nil.
Qed.

Lemma insert_one_nonempty index d l l' :
  insert_one index d l = Ok l' → l' ≠ [].
Proof.
  unfold insert_one. destruct (violates index d l); [done|].
  intros [= <-]. by intros [_ [=]]%app_eq_nil.
Qed.

Lemma on_collection_nonempty op w w' :
  (∀ l l', op l = Ok l' → l' ≠ []) →
  on_collection op w = (Ok (), w') → docs w' ≠ [].
Proof.
  intros Hop. unfold on_collection.
  destruct (op (docs w)) as [l'|] eqn:Hl; [|done].
  intros [= <-]. by apply (Hop (docs w)).
Qed.

Lemma for_each_nonempty {A} (body : A → action ()) l w w' :
  (∀ x w0 w1, body x w0 = (Ok (), w1) → docs w1 ≠ []) →
  l ≠ [] → for_each l body w = (Ok (), w') → docs w' ≠ [].
Proof.
  intros Hbody. revert w.
  induction l as [|x l IH]; intros w Hl; [done|].
  cbn [for_each]. intros ([] & w1 & Hx & Hrest)%action_bind_inv.
  destruct l as [|y l].
  - injection Hrest as <-. by apply (Hbody x w).
  - by apply (IH w1).
Qed.

Lemma keyed_write_nonempty (to_mongo : doc → doc) cfg f q
    (d : doc) w w' :
  (k ← UaModel.getitem d f;
   on_collection (replace_upsert (unique_index cfg) (q k) (to_mongo d))) w =
    (Ok (), w') →
  docs w' ≠ [].
Proof.
  intros (k & w1 & _ & Hwrite)%action_bind_inv.
  apply on_collection_nonempty in Hwrite; [done|].
  intros l l'. apply replace_upsert_nonempty.
Qed.

(** X18.  After a [save] or an [update] that returned, the collection is
    not empty and [has_data] answers [True]; after [empty] it answers
    [False]. *)
Theorem written_collection_has_data
    (to_mongo : doc → doc) (utcnow : nat → Z) cfg data_arg w :
  (is_ok (save to_mongo utcnow cfg data_arg w).1 = true →
   (has_data (save to_mongo utcnow cfg data_arg w).2).1 = Ok true) ∧
  (is_ok (update to_mongo utcnow cfg data_arg w).1 = true →
   (has_data (update to_mongo utcnow cfg data_arg w).2).1 = Ok true) ∧
  (has_data (empty w).2).1 = Ok false.
Proof.
  assert (∀ w', docs w' ≠ [] → (has_data w').1 = Ok true) as Hhas.
  { intros w' Hne. unfold has_data. cbn [fst]. f_equal.
    apply bool_decide_eq_true. destruct (docs w'); [done|simpl; lia]. }
  assert (∀ w0 w1 l, decorate_data utcnow cfg w0 = (Ok (), w1) →
            get_data w1 = (Ok l, w1) → data w0 ≠ [] → l ≠ []) as Hstamped.
  { intros w0 w1 l [= <-] [= <-] Hne Hnil. cbn [data] in Hnil.
    by apply (stamp_all_nil utcnow) in Hnil. }
  split_and!; [| |done].
  - destruct (save to_mongo utcnow cfg data_arg w) as [[r|e] w'] eqn:Hsave;
      [|done].
    intros _. cbn [snd]. apply Hhas. unfold save in Hsave.
    apply action_bind_inv in Hsave as ([] & w1 & _ & Hsave).
    apply action_bind_inv in Hsave as (d & w2 & Hd & Hsave).
    injection Hd as <- <-.
    case_bool_decide as Hdata; [done|].
    apply action_bind_inv in Hsave as ([] & w3 & Hdecorate & Hsave).
    apply action_bind_inv in Hsave as ([] & w4 & Hclear & Hsave).
    assert (data w4 = data w3) as Hkept.
    { destruct (clear_before_add cfg); by injection Hclear as <-. }
    assert (data w4 ≠ []) as Hne.
    { rewrite Hkept. by apply (Hstamped w1 w3). }
    destruct (truthy_str (get_unique_key cfg)).
    + apply action_bind_inv in Hsave as (ds & w5 & Hds & Hsave).
      injection Hds as <- <-.
      apply action_bind_inv in Hsave as ([] & w6 & Hloop & Hret).
      injection Hret as <- <-.
      apply for_each_nonempty in Hloop; [done| |done].
      intros x w0 w7. apply (keyed_write_nonempty to_mongo cfg _
                               (λ k, {[ "id" := Is k ]})).
    + apply action_bind_inv in Hsave as (ds & w5 & Hds & Hsave).
      injection Hds as <- <-.
      apply action_bind_inv in Hsave as ([] & w6 & Hloop & Hret).
      injection Hret as <- <-.
      apply for_each_nonempty in Hloop; [done| |].
      * intros x w0 w7. apply on_collection_nonempty.
        intros l l'. apply insert_one_nonempty.
      * by intros ?%fmap_nil_inv.
  - destruct (update to_mongo utcnow cfg data_arg w) as [[[]|e] w'] eqn:Hupd;
      [|done].
    intros _. cbn [snd]. apply Hhas. unfold update in Hupd.
    destruct (get_unique_key cfg) as [f|]; [|done].
    apply action_bind_inv in Hupd as ([] & w1 & _ & Hupd).
    apply action_bind_inv in Hupd as (d & w2 & Hd & Hupd).
    injection Hd as <- <-.
    case_bool_decide as Hdata; [done|].
    apply action_bind_inv in Hupd as ([] & w3 & Hdecorate & Hupd).
    apply action_bind_inv in Hupd as (ds & w4 & Hds & Hloop).
    injection Hds as <- <-.
    apply for_each_nonempty in Hloop; [done| |].
    + intros x w0 w5. apply (keyed_write_nonempty to_mongo cfg _
                               (λ k, {[ f := Is k ]})).
    + by apply (Hstamped w1 w3).
Qed.

(** *** The properties above at concrete inputs *)

Lemma update_replaces_or_inserts_witness :
  let b := Many [sprint7 5; sprint7 6] in
  let w := fresh_world in
  get_unique_key sprints = Some "sprint_id" ∧
  "sprint_id" ≠ "" ∧
  (∀ d : doc, id d !! "sprint_id" = d !! "sprint_id") ∧
  truthy_batch (Some b) = true ∧
  Forall (λ d : doc, is_Some (d !! "sprint_id")) (entries b) ∧
  index_ok (Some "sprint_id") (docs w) ∧
  let written := id <$> stamp_all hourly sprints (clock w) (entries b) in
  let after := update id hourly sprints (Some b) w in
  after.1 = Ok () ∧
  (∀ e, e ∈ docs after.2 → e ∈ docs w ∨ e ∈ written) ∧
  (∀ x, x ∈ docs w → field x "sprint_id" ∉ keys "sprint_id" written →
        x ∈ docs after.2) ∧
  (∀ earlier d later,
     written = earlier ++ d :: later →
     field d "sprint_id" ∉ keys "sprint_id" later →
     d ∈ docs after.2).
Proof.
  intros b w.
  assert (get_unique_key sprints = Some "sprint_id") as H1 by reflexivity.
  assert ("sprint_id" ≠ "") as H2 by discriminate.
  assert (∀ d : doc, id d !! "sprint_id" = d !! "sprint_id") as H3
    by reflexivity.
  assert (truthy_batch (Some b) = true) as H4 by reflexivity.
  assert (Forall (λ d : doc, is_Some (d !! "sprint_id")) (entries b)) as H5.
  { repeat apply Forall_cons_2; [| |apply Forall_nil_2];
      (eexists; vm_compute; reflexivity). }
  assert (index_ok (Some "sprint_id") (docs w)) as H6 by apply NoDup_nil_2.
  split; [exact H1|]. split; [exact H2|]. split; [exact H3|].
  split; [exact H4|]. split; [exact H5|]. split; [exact H6|].
  exact (update_replaces_or_inserts id hourly sprints "sprint_id" b w
           H1 H2 H3 H4 H5 H6).
Defined.

Lemma save_is_update_when_keyed_on_id_witness :
  let data_arg := Some (Many [pull 1 2; pull 1 3]) in
  get_unique_key pulls = Some "id" ∧
  clear_before_add pulls = false ∧
  (save id hourly pulls data_arg fresh_world).2 =
    (update id hourly pulls data_arg fresh_world).2 ∧
  same_outcome (save id hourly pulls data_arg fresh_world).1
    (update id hourly pulls data_arg fresh_world).1.
Proof.
  intros data_arg.
  assert (get_unique_key pulls = Some "id") as H1 by reflexivity.
  assert (clear_before_add pulls = false) as H2 by reflexivity.
  split; [exact H1|]. split; [exact H2|].
  exact (save_is_update_when_keyed_on_id id hourly pulls data_arg
           fresh_world H1 H2).
Defined.

End UaModelMore.
(** ** The collections built on the cache store *)

Module UaCollectionsFacts.
Import UaModel UaNotions UaCollections Examples CollectionExamples
  UaModelFacts.

Lemma bind_run {A B} (m : action A) (k : A → action B) w a w' :
  m w = (Ok a, w') → (m ≫= k) w = k a w'.
Proof. intros Hm. unfold mbind, action_bind. by rewrite Hm. Qed.

Lemma find_all l : find ∅ l = l.
Proof.
  unfold find. induction l as [|x l IH]; [done|].
  rewrite filter_cons_True.
  - by rewrite IH.
  - apply bool_decide_eq_true, map_Forall_empty.
Qed.

Lemma find_none f v l : v ∉ keys f l → find {[ f := Is v ]} l = [].
Proof.
  unfold find, keys. induction l as [|x l IH]; intros Hv; [done|].
  rewrite fmap_cons in Hv. apply not_elem_of_cons in Hv as [Hx Hv].
  rewrite filter_cons_False.
  - by apply IH.
  - rewrite matches_singleton. intros Heq. by rewrite Heq in Hx.
Qed.

Lemma find_upsert f d l :
  index_ok (Some f) l → find {[ f := Is (field d f) ]} (upsert f d l) = [d].
Proof.
  unfold index_ok. induction l as [|x l IH]; intros Hnd; cbn [upsert].
  - unfold find. by rewrite filter_cons_True by (by apply matches_singleton).
  - rewrite fmap_cons in Hnd. apply NoDup_cons in Hnd as [Hx Hnd].
    case_bool_decide as Heq.
    + unfold find.
      rewrite filter_cons_True by (by apply matches_singleton).
      f_equal. apply find_none. unfold keys. by rewrite <- Heq.
    + unfold find. rewrite filter_cons_False.
      * by apply IH.
      * by rewrite matches_singleton.
Qed.

Lemma find_remove q q' l :
  (∀ x, matches q' x = true → matches q x = true) →
  find q' (remove q l) = [].
Proof.
  intros Hsub.
  destruct (find q' (remove q l)) as [|e rest] eqn:Hf; [done|].
  assert (e ∈ find q' (remove q l)) as He by (rewrite Hf; left).
  apply list_elem_of_filter in He as [Hq' He].
  apply list_elem_of_filter in He as [Hq _].
  by apply Hsub in Hq'.
Qed.

Lemma matches_insert_iff q d f c :
  q !! f = None →
  matches (<[f := c]> q) d = true ↔
    clause_holds c (field d f) = true ∧ matches q d = true.
Proof.
  intros Hf. unfold matches. rewrite !bool_decide_eq_true.
  by rewrite map_Forall_insert.
Qed.

Lemma effective_query_plain cfg now override_ttl q :
  truthy_num (ttl_used cfg override_ttl) = false →
  truthy_str (get_unique_type cfg) = false →
  effective_query cfg now override_ttl q = q.
Proof.
  intros Httl Hty. unfold effective_query. cbv zeta. by rewrite Httl, Hty.
Qed.

Lemma effective_query_ttl cfg now override_ttl q T :
  ttl_used cfg override_ttl = Some T → T ≠ 0 →
  q !! "storage_time" = None →
  truthy_str (get_unique_type cfg) = false →
  effective_query cfg now override_ttl q =
    <["storage_time" := Gte (VTime (now - T))]> q.
Proof.
  intros Httl HT Hq Hty. unfold effective_query. cbv zeta.
  rewrite Httl, Hty, Hq. unfold truthy_num.
  rewrite (bool_decide_true (T ≠ 0)) by done.
  by rewrite (bool_decide_true (None = None)) by done.
Qed.

(** A [load] handed a dictionary display. *)
Lemma load_new_dict utcnow cfg q0 limit order_by sort_order override_ttl w :
  ∃ l w1 w',
    new_dict q0 w = (Ok l, w1) ∧
    load utcnow cfg (Some l) limit order_by sort_order override_ttl w1 =
      (Ok (cursor_result limit order_by sort_order
             (find (effective_query cfg (utcnow (clock w)) override_ttl q0)
                (docs w))), w') ∧
    docs w' = docs w.
Proof.
  set (l := fresh (dom (heap w))).
  set (w1 := {| data := data w; docs := docs w; clock := clock w;
                heap := <[l := q0]> (heap w) |}).
  destruct (load_spec utcnow cfg (Some l) limit order_by sort_order
              override_ttl w1) as (w' & Hload & Hdocs & _).
  assert (caller_query w1 (Some l) = q0) as Hq.
  { unfold caller_query. subst w1. cbn [heap]. by rewrite lookup_insert_eq. }
  rewrite Hq in Hload.
  exists l, w1, w'. split; [done|]. split; [exact Hload|exact Hdocs].
Qed.

Lemma stamped_time (to_mongo : doc → doc) cfg t d :
  (∀ x, to_mongo x !! "storage_time" = x !! "storage_time") →
  field (to_mongo (stamp cfg t d)) "storage_time" = VTime t.
Proof.
  intros Hser. unfold field, stamp. rewrite Hser.
  rewrite lookup_insert_ne by done. by rewrite lookup_insert_eq.
Qed.

Lemma stamped_field (to_mongo : doc → doc) cfg t d f :
  (∀ x, to_mongo x !! f = x !! f) →
  f ≠ "storage_time" → f ≠ "storage_type" →
  field (to_mongo (stamp cfg t d)) f = field d f.
Proof.
  intros Hser Hf1 Hf2. unfold field. rewrite Hser, stamp_lookup by done.
  by rewrite decide_False by done.
Qed.

(** *** Team sprint statistics *)

(** X9.  After an [update] of the team sprint collection with one entry,
    [load_sprint] with the entry's sprint id yields that entry as stored,
    whatever was stored under that id before; a sprint id that was never
    stored yields [None]. *)
Theorem updated_sprint_is_loaded (to_mongo : doc → doc) (utcnow : nat → Z)
    e v override_ttl w :
  (∀ d, to_mongo d !! "sprint_id" = d !! "sprint_id") →
  e !! "sprint_id" = Some v →
  index_ok (Some "sprint_id") (docs w) →
  truthy_num override_ttl = false →
  let after := update to_mongo utcnow UaTeamSprintData (Some (One e)) w in
  after.1 = Ok () ∧
  (load_sprint utcnow v override_ttl after.2).1 =
    Ok (Some (to_mongo (stamp UaTeamSprintData (utcnow (clock w)) e))) ∧
  (∀ v', v' ∉ keys "sprint_id" (docs w) → v' ≠ v →
     (load_sprint utcnow v' override_ttl after.2).1 = Ok None).
Proof.
  intros Hser He Hok Hovr after. subst after.
  assert (truthy_batch (Some (One e)) = true) as Hb.
  { apply bool_decide_eq_true. intros ->. by rewrite lookup_empty in He. }
  assert (Forall (λ d : doc, is_Some (d !! "sprint_id")) (entries (One e)))
    as Hkeys by (apply Forall_singleton; by rewrite He).
  rewrite (update_keyed to_mongo utcnow UaTeamSprintData "sprint_id"
             (One e) w) by done.
  set (written := to_mongo (stamp UaTeamSprintData (utcnow (clock w)) e)).
  cbn [fst snd]. split; [done|].
  set (w1 := {| data := stamp_all utcnow UaTeamSprintData (clock w)
                          (entries (One e)) |}).
  assert (docs w1 = upsert "sprint_id" written (docs w)) as Hdocs
    by reflexivity.
  assert (field written "sprint_id" = v) as Hv.
  { unfold written. rewrite (stamped_field to_mongo) by done.
    unfold field. by rewrite He. }
  assert (∀ now q, effective_query UaTeamSprintData now override_ttl q = q)
    as Hplain.
  { intros now q. apply effective_query_plain; [|done].
    unfold ttl_used. by rewrite Hovr. }
  assert (∀ v0 found,
            find {[ "sprint_id" := Is v0 ]} (docs w1) = found →
            (load_sprint utcnow v0 override_ttl w1).1 =
              Ok (first_or_none found)) as Hrun.
  { intros v0 found Hfound. unfold load_sprint.
    destruct (load_new_dict utcnow UaTeamSprintData
                {[ "sprint_id" := Is v0 ]} None None DESCENDING
                override_ttl w1) as (l & w2 & w3 & Hnew & Hload & _).
    rewrite (bind_run _ _ _ _ _ Hnew), (bind_run _ _ _ _ _ Hload).
    by rewrite Hplain, Hfound. }
  split.
  - rewrite (Hrun v [written]); [done|].
    rewrite Hdocs, <- Hv. by apply find_upsert.
  - intros v' Hv' Hne. rewrite (Hrun v' []); [done|].
    rewrite Hdocs. apply find_none. unfold keys. rewrite upsert_keys.
    case_decide; [done|].
    apply not_elem_of_app. split; [done|].
    rewrite list_elem_of_singleton. by rewrite Hv.
Qed.

(** *** Pull requests *)

(** X10.  [get_most_recent_pr] yields [None] exactly when nothing is
    stored; otherwise it yields a stored pull request whose [created_at] is
    the latest of all stored ones.  It changes nothing. *)
Theorem most_recent_pr_is_latest w :
  ∃ r,
    get_most_recent_pr w = (Ok r, w) ∧
    match r with
    | None => docs w = []
    | Some e =>
        e ∈ docs w ∧
        ∀ e', e' ∈ docs w →
              bson_le (field e' "created_at") (field e "created_at")
    end.
Proof.
  unfold get_most_recent_pr.
  rewrite (bind_run get_docs _ w (docs w) w) by done.
  rewrite find_all.
  pose proof (sort_descending_head "created_at" (docs w)) as Hs.
  case_bool_decide as Hlen.
  - destruct (cursor_sort "created_at" DESCENDING (docs w))
      as [|e rest] eqn:Hsort.
    + rewrite Hs in Hlen. simpl in Hlen. lia.
    + exists (Some e). split; [done|]. exact Hs.
  - exists None. split; [done|].
    destruct (docs w); [done|]. simpl in Hlen. lia.
Qed.

(** *** The dashboard *)

(** X11.  Saving a dashboard replaces everything stored by the one stamped
    entry, and [load_dashboard] then yields that entry as long as the clock
    has advanced by at most three hours since the stamp, and [None] once it
    has advanced further. *)
Theorem saved_dashboard_is_loaded (to_mongo : doc → doc) (utcnow : nat → Z)
    d w :
  d ≠ ∅ →
  (∀ x, to_mongo x !! "storage_time" = x !! "storage_time") →
  let written := to_mongo (stamp UaDashboardData (utcnow (clock w)) d) in
  let saved := save to_mongo utcnow UaDashboardData (Some (One d)) w in
  let now := utcnow (clock w + 1)%nat in
  saved.1 = Ok true ∧
  docs saved.2 = [written] ∧
  (load_dashboard utcnow saved.2).1 =
    Ok (if bool_decide (now - hours 3 ≤ utcnow (clock w))
        then Some written else None).
Proof.
  intros Hd Hser written saved now. subst saved.
  assert (truthy_batch (Some (One d)) = true) as Hb
    by (by apply bool_decide_eq_true).
  rewrite (save_unkeyed to_mongo utcnow UaDashboardData (One d) w)
    by done.
  cbn [fst snd]. split; [done|].
  set (w1 := {| data := stamp_all utcnow UaDashboardData (clock w)
                          (entries (One d)) |}).
  assert (docs w1 = [written]) as Hdocs by reflexivity.
  split; [done|].
  destruct (load_spec utcnow UaDashboardData None (Some 1)
              (Some "storage_time") DESCENDING None w1)
    as (w2 & Hload & _).
  unfold load_dashboard. rewrite (bind_run _ _ _ _ _ Hload).
  change (caller_query w1 None) with (∅ : query).
  change (utcnow (clock w1)) with now.
  rewrite (effective_query_ttl _ _ _ _ (hours 3)), insert_empty, Hdocs;
    [|done|unfold hours; lia|done|done].
  assert (matches {[ "storage_time" := Gte (VTime (now - hours 3)) ]}
            written = true ↔ now - hours 3 ≤ utcnow (clock w)) as Hm.
  { unfold matches. rewrite bool_decide_eq_true, map_Forall_singleton.
    unfold written. rewrite (stamped_time to_mongo) by done.
    apply gte_time_holds. }
  unfold find. case_bool_decide as Hfresh.
  - by rewrite filter_cons_True by (by apply Hm).
  - rewrite filter_cons_False; [done|]. by rewrite Hm.
Qed.

(** *** Cached result sets *)


(** *** Jira sprints *)

(** X13.  [load_team_sprints] never raises and yields stored sprints of the
    given team only, the one with the latest [endDate] first; every sprint
    of the team stored less than two hours ago is among them. *)
Theorem team_sprints_latest_first (utcnow : nat → Z) team w :
  ∃ found w',
    load_team_sprints utcnow team w = (Ok found, w') ∧
    docs w' = docs w ∧
    StronglySorted
      (λ a b, bson_le (field b "endDate") (field a "endDate")) found ∧
    (∀ e, e ∈ found → e ∈ docs w ∧ field e "team_id" = team) ∧
    (∀ e st,
       e ∈ docs w → field e "team_id" = team →
       field e "storage_time" = VTime st →
       utcnow (clock w) - hours 2 ≤ st →
       e ∈ found).
Proof.
  unfold load_team_sprints.
  destruct (load_new_dict utcnow UaJiraSprintsData {[ "team_id" := Is team ]}
              None (Some "endDate") DESCENDING None w)
    as (l & w1 & w' & Hnew & Hload & Hdocs).
  rewrite (bind_run _ _ _ _ _ Hnew), Hload.
  rewrite (effective_query_ttl _ _ _ _ (hours 2));
    [|done|unfold hours; lia|done|done].
  set (q := <["storage_time" := Gte (VTime (utcnow (clock w) - hours 2))]>
              ({[ "team_id" := Is team ]} : query)).
  change (cursor_result None (Some "endDate") DESCENDING (find q (docs w)))
    with (cursor_sort "endDate" DESCENDING (find q (docs w))).
  assert (∀ x, matches q x = true ↔
               clause_holds (Gte (VTime (utcnow (clock w) - hours 2)))
                 (field x "storage_time") = true ∧
               field x "team_id" = team) as Hq.
  { intros x. unfold q. rewrite matches_insert_iff by done.
    by rewrite matches_singleton. }
  do 2 eexists. split; [done|]. split; [done|]. split_and!.
  - unfold cursor_sort.
    set (R := λ a b : doc, bson_le (field b "endDate") (field a "endDate")).
    assert (Total R) by (intros a b; apply bson_le_total).
    assert (Transitive R).
    { intros a b c Hab Hbc.
      by apply (bson_le_trans _ (field b "endDate")). }
    apply (StronglySorted_merge_sort R).
  - intros e. rewrite cursor_sort_perm.
    intros [[_ Hteam]%Hq He]%list_elem_of_filter. done.
  - intros e st He Hteam Hst Hfresh. rewrite cursor_sort_perm.
    apply list_elem_of_filter. split; [|done].
    apply Hq. split; [|done]. rewrite Hst. by apply gte_time_holds.
Qed.

(** *** The properties above at concrete inputs *)

Lemma updated_sprint_is_loaded_witness :
  let e := sprint_stats 7 21 in
  let w := fresh_world in
  (∀ d : doc, id d !! "sprint_id" = d !! "sprint_id") ∧
  e !! "sprint_id" = Some (VInt 7) ∧
  index_ok (Some "sprint_id") (docs w) ∧
  truthy_num None = false ∧
  let after := update id every_hour UaTeamSprintData (Some (One e)) w in
  after.1 = Ok () ∧
  (load_sprint every_hour (VInt 7) None after.2).1 =
    Ok (Some (id (stamp UaTeamSprintData (every_hour (clock w)) e))) ∧
  (∀ v', v' ∉ keys "sprint_id" (docs w) → v' ≠ VInt 7 →
     (load_sprint every_hour v' None after.2).1 = Ok None).
Proof.
  intros e w.
  assert (∀ d : doc, id d !! "sprint_id" = d !! "sprint_id") as H1
    by reflexivity.
  assert (e !! "sprint_id" = Some (VInt 7)) as H2
    by (vm_compute; reflexivity).
  assert (index_ok (Some "sprint_id") (docs w)) as H3 by apply NoDup_nil_2.
  assert (truthy_num None = false) as H4 by reflexivity.
  split; [exact H1|]. split; [exact H2|]. split; [exact H3|].
  split; [exact H4|].
  exact (updated_sprint_is_loaded id every_hour e (VInt 7) None w
           H1 H2 H3 H4).
Defined.

Lemma saved_dashboard_is_loaded_witness :
  let d := dashboard 4 in
  let w := fresh_world in
  d ≠ ∅ ∧
  (∀ x : doc, id x !! "storage_time" = x !! "storage_time") ∧
  let written := id (stamp UaDashboardData (every_hour (clock w)) d) in
  let saved := save id every_hour UaDashboardData (Some (One d)) w in
  let now := every_hour (clock w + 1)%nat in
  saved.1 = Ok true ∧
  docs saved.2 = [written] ∧
  (load_dashboard every_hour saved.2).1 =
    Ok (if bool_decide (now - hours 3 ≤ every_hour (clock w))
        then Some written else None).
Proof.
  intros d w.
  assert (d ≠ ∅) as H1 by apply insert_non_empty.
  assert (∀ x : doc, id x !! "storage_time" = x !! "storage_time") as H2
    by reflexivity.
  split; [exact H1|]. split; [exact H2|].
  exact (saved_dashboard_is_loaded id every_hour d w H1 H2).
Defined.


End UaCollectionsFacts.
(** ** The sprint fetcher: input validation and cache policy *)

Module SprintFetcherFacts.
Import UaModel SprintFetcher.

(** The outcome of [validate_input] by cases on the four tests it makes. *)
Lemma validate_input_cases (SPRINT_LAST_COMPLETED SPRINT_CURRENT : value)
    (args : gmap string value) :
  let self :=
    {| team_id := default VNone (args !! "team_id");
       sprint_id := default SPRINT_LAST_COMPLETED (args !! "sprint_id");
       get_history := default (VInt 0) (args !! "get_history") |} in
  let named := truthy_value (team_id self) in
  let relative :=
    bool_decide (sprint_id self = SPRINT_LAST_COMPLETED ∨
                 sprint_id self = SPRINT_CURRENT) in
  let history := truthy_value (get_history self) in
  let given := bool_decide (is_Some (args !! "sprint_id")) in
  let outcome :=
    (validate_input SPRINT_LAST_COMPLETED SPRINT_CURRENT args).1 in
  (validate_input SPRINT_LAST_COMPLETED SPRINT_CURRENT args).2 = self ∧
  if (named || relative) && (negb history || (negb given && named))
  then outcome = Accepted true
  else ∃ message, outcome = LookupError message.
Proof.
  intros self named relative history given outcome.
  subst outcome. unfold validate_input. fold self. fold named.
  fold relative. fold history. fold given.
  destruct named, relative, history, given; cbn [negb andb orb fst snd];
    eauto.
Qed.

(** X14.  [validate_input] returns [True] or raises [LookupError].  It
    accepts exactly the requests that name a team or ask for the last
    completed or the current sprint, and that, when they ask for the
    history, name a team and pass no [sprint_id]; an accepted request for
    the history therefore has [sprint_id] set to the last completed
    sprint. *)
Theorem validate_input_accepts (SPRINT_LAST_COMPLETED SPRINT_CURRENT : value)
    (args : gmap string value) :
  let outcome :=
    (validate_input SPRINT_LAST_COMPLETED SPRINT_CURRENT args).1 in
  let self := (validate_input SPRINT_LAST_COMPLETED SPRINT_CURRENT args).2 in
  (outcome = Accepted true ∨ ∃ message, outcome = LookupError message) ∧
  (outcome = Accepted true ↔
     (truthy_value (team_id self) = true ∨
      sprint_id self = SPRINT_LAST_COMPLETED ∨
      sprint_id self = SPRINT_CURRENT) ∧
     (truthy_value (get_history self) = true →
      args !! "sprint_id" = None ∧ truthy_value (team_id self) = true)) ∧
  (outcome = Accepted true →
   truthy_value (get_history self) = true →
   sprint_id self = SPRINT_LAST_COMPLETED).
Proof.
  intros outcome self.
  destruct (validate_input_cases SPRINT_LAST_COMPLETED SPRINT_CURRENT args)
    as [Hself Hout].
  subst outcome self. rewrite Hself. clear Hself.
  cbn [team_id sprint_id get_history] in *.
  set (team := default VNone (args !! "team_id")) in *.
  set (sprint := default SPRINT_LAST_COMPLETED (args !! "sprint_id")) in *.
  set (history := default (VInt 0) (args !! "get_history")) in *.
  set (outcome :=
         (validate_input SPRINT_LAST_COMPLETED SPRINT_CURRENT args).1) in *.
  assert (args !! "sprint_id" = None → sprint = SPRINT_LAST_COMPLETED)
    as Hdefault by (unfold sprint; by intros ->).
  assert (args !! "sprint_id" = None ↔ ¬ is_Some (args !! "sprint_id"))
    as Hgiven by apply eq_None_not_Some.
  assert (∀ message, outcome = LookupError message →
                     outcome ≠ Accepted true) as Hraised by congruence.
  destruct (truthy_value team), (truthy_value history);
    case_bool_decide as Hrelative; case_bool_decide as Hpassed;
    cbn [negb andb orb] in Hout;
    lazymatch type of Hout with
    | ex _ =>
        destruct Hout as [message Hout]; pose proof (Hraised _ Hout) as Hno
    | _ => idtac
    end;
    clear Hraised; clearbody outcome sprint;
    intuition (eauto; congruence).
Qed.

(** X15.  A sprint given as a dictionary is served from the cache only when
    it is closed and was completed more than six days ago.  A sprint that
    is not closed is never served from the cache, whether or not it has a
    completion date; a closed one without a completion date, or with one
    that is not a date, raises.  Anything that is not a dictionary is
    served from the cache. *)
Theorem should_use_cache_closed_a_while (now : Z) (sprint : doc) :
  (should_use_cache now (inl sprint) = Ok true ↔
     sprint !! "state" = Some (VStr "CLOSED") ∧
     ∃ t, sprint !! "completeDate" = Some (VTime t) ∧ t < now - days 6) ∧
  (∀ state, sprint !! "state" = Some state → state ≠ VStr "CLOSED" →
     should_use_cache now (inl sprint) = Ok false) ∧
  (sprint !! "state" = Some (VStr "CLOSED") →
   (∀ t, sprint !! "completeDate" ≠ Some (VTime t)) →
   ∃ e, should_use_cache now (inl sprint) = Raise e) ∧
  (∀ other, should_use_cache now (inr other) = Ok true).
Proof.
  unfold should_use_cache. split_and!.
  - destruct (sprint !! "state") as [state|].
    2: { split; [done|]. by intros [? _]. }
    case_bool_decide as Hstate.
    2: { split; [done|]. by intros [[= ->] _]. }
    subst state.
    destruct (sprint !! "completeDate") as [[| | |t]|].
    1-3, 5: by (split; [|intros (_ & t' & ? & _)]).
    split.
    + intros [= Ht%bool_decide_eq_true]. eauto.
    + intros (_ & t' & [= <-] & Ht). by rewrite bool_decide_true.
  - intros state -> Hstate. by rewrite bool_decide_false.
  - intros -> Hdate. rewrite bool_decide_true by done.
    destruct (sprint !! "completeDate") as [[| | |t]|]; eauto.
    by destruct (Hdate t).
  - done.
Qed.

End SprintFetcherFacts.
(** ** The shape of the aggregate *)

Module SprintShape.
Import UaSprintDataFetcher SprintNotions SprintFacts.

Lemma info_not_tracked : ("info" ∉ point_keys) ∧ ("info" ∉ issue_keys).
Proof. split; apply (bool_decide_unpack _); by vm_compute. Qed.

Section facts.
Context {F : Type} `{PyFloat F}.
Implicit Types (agg : gmap pykey (entry (F:=F))) (e : gmap string (slot (F:=F))).
Implicit Types (s v : jval (F:=F)).

Lemma is_ok_inv {A} (r : result A) : is_ok r = true → ∃ a, r = Ok a.
Proof. destruct r as [a|]; [by exists a|done]. Qed.

Lemma append_asc_order_inv agg _id agg' :
  append_asc_order agg _id = Ok agg' →
  ∃ ids, agg !! KStr "asc_order" = Some (AscOrder ids) ∧
         agg' = <[KStr "asc_order" := AscOrder (ids ++ [_id])]> agg.
Proof.
  unfold append_asc_order.
  destruct (agg !! KStr "asc_order") as [[ids|e]|]; try done.
  intros [= <-]. by exists ids.
Qed.

Lemma create_storage_inv agg _id sprint agg' :
  create_storage agg _id sprint = Ok agg' →
  ∃ k, as_key _id = Ok k ∧
       ((agg !! k = None ∧
         agg' = <[k := PerSprint {[ "info" := Info sprint ]}]> agg) ∨
        (is_Some (agg !! k) ∧ agg' = agg)).
Proof.
  unfold create_storage. intros (k & Hk & Hst)%bind_inv.
  exists k. split; [done|].
  destruct (agg !! k) as [x|] eqn:Hl; injection Hst as <-; eauto.
Qed.

Lemma store_stats_inv agg _id key t agg' :
  store_stats agg _id key t = Ok agg' →
  ∃ k e, as_key _id = Ok k ∧ agg !! k = Some (PerSprint e) ∧
         agg' = <[k := PerSprint (<[key := Stats t]> e)]> agg.
Proof.
  unfold store_stats. intros (k & Hk & Hst)%bind_inv.
  destruct (agg !! k) as [[ids|e]|] eqn:Hl; try done.
  injection Hst as <-. by exists k, e.
Qed.

Lemma accumulate_inv idx agg last_sprint_id _id key current agg' :
  accumulate idx agg last_sprint_id _id key current = Ok agg' →
  ∃ k e t, as_key _id = Ok k ∧ agg !! k = Some (PerSprint e) ∧
           agg' = <[k := PerSprint (<[key := Stats t]> e)]> agg.
Proof.
  unfold accumulate. case_bool_decide.
  - intros (k & e & Hst)%store_stats_inv. by do 3 eexists.
  - intros (prev & _ & Hst)%bind_inv. cbv beta zeta in Hst.
    apply store_stats_inv in Hst as (k & e & Hst). by do 3 eexists.
Qed.

(** A loop over tracked fields assigns a triple under each of them in the
    record of [_id], and touches nothing else. *)
Lemma aggregate_keys_inv read ks idx s agg last_sprint_id _id agg' k e :
  as_key _id = Ok k → agg !! k = Some (PerSprint e) →
  aggregate_keys read ks idx s agg last_sprint_id _id = Ok agg' →
  ∃ e', agg' = <[k := PerSprint e']> agg ∧
        (∀ key, key ∈ ks → ∃ t, e' !! key = Some (Stats t)) ∧
        (∀ key, key ∉ ks → e' !! key = e !! key) ∧
        (∀ key t, e !! key = Some (Stats t) →
                  ∃ t', e' !! key = Some (Stats t')).
Proof.
  intros Hk. revert agg e.
  induction ks as [|key ks IH]; intros agg e He; cbn [aggregate_keys].
  - intros [= <-]. exists e. split; [by rewrite insert_id|].
    split_and!; [by intros ? ?%elem_of_nil|done|eauto].
  - intros (current & _ & (agg1 & Hacc & Hrest)%bind_inv)%bind_inv.
    apply accumulate_inv in Hacc as (k1 & e1 & t & Hk1 & He1 & ->).
    rewrite Hk in Hk1. injection Hk1 as <-.
    rewrite He in He1. injection He1 as <-.
    apply (IH _ (<[key := Stats t]> e)) in Hrest
      as (e' & -> & Hin & Hout & Hmono); [|by rewrite lookup_insert_eq].
    exists e'. split; [by rewrite insert_insert_eq|]. split_and!.
    + intros key' [->|Hin']%elem_of_cons; [|by apply Hin].
      apply (Hmono key t). by rewrite lookup_insert_eq.
    + intros key' [Hne Hnin]%not_elem_of_cons.
      rewrite Hout by done. by rewrite lookup_insert_ne.
    + intros key' t' Hkey'. destruct (decide (key' = key)) as [->|Hne].
      * apply (Hmono key t). by rewrite lookup_insert_eq.
      * apply (Hmono key' t'). by rewrite lookup_insert_ne.
Qed.

Lemma aggregate_keys_head read key ks idx s agg last_sprint_id _id agg' :
  aggregate_keys read (key :: ks) idx s agg last_sprint_id _id = Ok agg' →
  ∃ k e, as_key _id = Ok k ∧ agg !! k = Some (PerSprint e).
Proof.
  cbn [aggregate_keys].
  intros (current & _ & (agg1 & Hacc & _)%bind_inv)%bind_inv.
  apply accumulate_inv in Hacc as (k & e & t & Hk & He & _). eauto.
Qed.

(** What one iteration does to the aggregate. *)
Lemma iteration_inv idx s agg _id agg' _id' :
  iteration idx s agg _id = Ok (agg', _id') →
  ∃ sprint k ids e',
    getitem s "sprint" = Ok sprint ∧ getitem sprint "id" = Ok _id' ∧
    as_key _id' = Ok k ∧ k ≠ KStr "asc_order" ∧
    agg !! KStr "asc_order" = Some (AscOrder ids) ∧
    agg' = <[k := PerSprint e']>
             (<[KStr "asc_order" := AscOrder (ids ++ [_id'])]> agg) ∧
    complete e' ∧
    match agg !! k with
    | None => e' !! "info" = Some (Info sprint)
    | Some (PerSprint e) => e' !! "info" = e !! "info"
    | Some (AscOrder _) => False
    end.
Proof.
  unfold iteration. cbv zeta.
  intros (sprint & Hsprint & (id & Hid & (agg1 & Happend & (agg2 & Hcreate &
    (s' & _ & (agg3 & Hpoints & (agg4 & Hissues & Hret)%bind_inv)%bind_inv)
    %bind_inv)%bind_inv)%bind_inv)%bind_inv)%bind_inv.
  injection Hret as <- <-.
  apply append_asc_order_inv in Happend as (ids & Hasc & ->).
  apply create_storage_inv in Hcreate as (k & Hk & Hcreate).
  destruct (aggregate_keys_head _ _ _ _ _ _ _ _ _ Hpoints)
    as (k' & e2 & Hk' & He2).
  rewrite Hk in Hk'. injection Hk' as <-.
  destruct (aggregate_keys_inv _ _ _ _ _ _ _ _ _ _ Hk He2 Hpoints)
    as (e3 & -> & Hin3 & Hout3 & _).
  assert ((<[k := PerSprint e3]> agg2) !! k = Some (PerSprint e3)) as He3
    by (by rewrite lookup_insert_eq).
  destruct (aggregate_keys_inv _ _ _ _ _ _ _ _ _ _ Hk He3 Hissues)
    as (e4 & -> & Hin4 & Hout4 & Hmono4).
  rewrite insert_insert_eq.
  destruct info_not_tracked as [Hinfo3 Hinfo4].
  assert (e4 !! "info" = e2 !! "info") as Hinfo
    by (by rewrite Hout4, Hout3).
  assert (complete e4) as Hcomplete.
  { intros key [Hkey|Hkey]%elem_of_app; [|by apply Hin4].
    destruct (Hin3 key Hkey) as [t Ht]. by apply (Hmono4 key t). }
  assert (k ≠ KStr "asc_order") as Hne.
  { intros ->. destruct Hcreate as [[Hnone _]|[_ ->]].
    - by rewrite lookup_insert_eq in Hnone.
    - by rewrite lookup_insert_eq in He2. }
  exists sprint, k, ids, e4. split_and!; try done.
  - destruct Hcreate as [[_ ->]|[_ ->]]; [|done].
    by rewrite insert_insert_eq.
  - destruct Hcreate as [[Hnone ->]|[_ ->]].
    + rewrite lookup_insert_ne in Hnone by done. rewrite Hnone.
      rewrite lookup_insert_eq in He2. injection He2 as <-.
      rewrite Hinfo. by rewrite lookup_singleton_eq.
    + rewrite lookup_insert_ne in He2 by done. by rewrite He2.
Qed.

Lemma sprint_loop_asc idx rest agg _id agg' ids :
  agg !! KStr "asc_order" = Some (AscOrder ids) →
  sprint_loop idx rest agg _id = Ok agg' →
  ∃ ids', agg' !! KStr "asc_order" = Some (AscOrder (ids ++ ids')) ∧
          Forall2 has_id rest ids'.
Proof.
  revert idx agg _id ids.
  induction rest as [|s rest IH]; intros idx agg _id ids Hasc;
    cbn [sprint_loop].
  - intros [= <-]. exists []. by rewrite app_nil_r.
  - intros ([agg1 id1] & Hstep & Hrest)%bind_inv. cbn [fst snd] in Hrest.
    apply iteration_inv in Hstep
      as (sprint & k & ids0 & e' & Hsprint & Hid & Hk & Hne & Hasc0 & ->
          & _ & _).
    rewrite Hasc in Hasc0. injection Hasc0 as <-.
    apply (IH _ _ _ (ids ++ [id1])) in Hrest as (ids' & Hasc' & Hids).
    + exists (id1 :: ids'). rewrite <- app_assoc in Hasc'.
      split; [done|]. constructor; [by exists sprint|done].
    + rewrite lookup_insert_ne by done. by rewrite lookup_insert_eq.
Qed.

Lemma sprint_loop_records idx rest agg _id agg' seen :
  (∃ ids, agg !! KStr "asc_order" = Some (AscOrder ids)) →
  (∀ k ids, agg !! k = Some (AscOrder ids) → k = KStr "asc_order") →
  records_of seen agg →
  sprint_loop idx rest agg _id = Ok agg' →
  records_of (seen ++ rest) agg' ∧
  (∀ k ids, agg' !! k = Some (AscOrder ids) → k = KStr "asc_order").
Proof.
  revert idx agg _id seen.
  induction rest as [|s rest IH]; intros idx agg _id seen Hasc Honly Hrec;
    cbn [sprint_loop].
  - intros [= <-]. by rewrite app_nil_r.
  - intros ([agg1 id1] & Hstep & Hrest)%bind_inv. cbn [fst snd] in Hrest.
    apply iteration_inv in Hstep
      as (sprint & k & ids & e' & Hsprint & Hid & Hk & Hne & Hasc0 & ->
          & Hcomplete & Hinfo).
    assert (sprint_key s = Ok k) as Hkey.
    { unfold sprint_key. rewrite Hsprint. cbn. by rewrite Hid. }
    rewrite cons_middle, app_assoc.
    apply (IH _ _ _ (seen ++ [s])) in Hrest; [done| | |].
    + eexists. rewrite lookup_insert_ne by done. by rewrite lookup_insert_eq.
    + intros k0 ids0 Hk0. destruct (decide (k0 = k)) as [->|Hk0k].
      { by rewrite lookup_insert_eq in Hk0. }
      rewrite lookup_insert_ne in Hk0 by done.
      destruct (decide (k0 = KStr "asc_order")) as [|Hk0a]; [done|].
      rewrite lookup_insert_ne in Hk0 by done. by apply (Honly k0 ids0).
    + destruct Hrec as [Hstems Hhas]. split.
      * intros k0 e0 Hk0. destruct (decide (k0 = k)) as [->|Hk0k].
        -- rewrite lookup_insert_eq in Hk0. injection Hk0 as <-.
           split; [|done].
           destruct (agg !! k) as [[?|e]|] eqn:Hold; [done| |].
           ++ destruct (Hstems k e Hold) as [(s0 & sp0 & ? & ? & ? & ?) _].
              exists s0, sp0. split_and!; try done.
              ** apply elem_of_app. by left.
              ** congruence.
           ++ exists s, sprint. split_and!; try done.
              apply elem_of_app. right. by apply list_elem_of_singleton.
        -- rewrite lookup_insert_ne in Hk0 by done.
           destruct (decide (k0 = KStr "asc_order")) as [->|Hk0a].
           { by rewrite lookup_insert_eq in Hk0. }
           rewrite lookup_insert_ne in Hk0 by done.
           destruct (Hstems k0 e0 Hk0)
             as [(s0 & sp0 & ? & ? & ? & ?) Hc0].
           split; [|done]. exists s0, sp0. split_and!; try done.
           apply elem_of_app. by left.
      * intros s0 [Hs0|Hs0%list_elem_of_singleton]%elem_of_app.
        -- destruct (Hhas s0 Hs0) as (k0 & e0 & Hkey0 & Hk0).
           destruct (decide (k0 = k)) as [->|Hk0k].
           ++ exists k, e'. split; [done|]. by rewrite lookup_insert_eq.
           ++ exists k0, e0. split; [done|].
              rewrite lookup_insert_ne by done.
              rewrite lookup_insert_ne; [done|].
              intros <-. congruence.
        -- subst s0. exists k, e'. split; [done|].
           by rewrite lookup_insert_eq.
Qed.

End facts.

(** X16.  When the aggregation returns, [asc_order] lists the id of every
    snapshot, oldest first: the ids of the given list in reverse order,
    one per snapshot (an id that occurs twice is listed twice). *)
Theorem asc_order_lists_the_ids {F} `{PyFloat F}
    (sprint_data : list (jval (F:=F))) :
  is_ok (_aggregate_sprint_history_data sprint_data) = true →
  ∃ agg ids,
    _aggregate_sprint_history_data sprint_data = Ok agg ∧
    agg !! KStr "asc_order" = Some (AscOrder ids) ∧
    Forall2 has_id (reverse sprint_data) ids ∧
    length ids = length sprint_data.
Proof.
  intros [agg Hrun]%is_ok_inv. exists agg.
  pose proof Hrun as Hloop. unfold _aggregate_sprint_history_data in Hloop.
  cbv zeta in Hloop.
  apply (sprint_loop_asc _ _ _ _ _ []) in Hloop as (ids & Hasc & Hids);
    [|by rewrite lookup_singleton_eq].
  exists ids. split_and!; try done.
  apply Forall2_length in Hids. by rewrite length_reverse in Hids.
Qed.

(** X17.  When the aggregation returns, the aggregate holds, under the id
    of every snapshot, a record with a triple for each of the eight tracked
    fields and, under ["info"], the sprint metadata of a snapshot with that
    id; besides [asc_order] it holds nothing but such records. *)
Theorem every_sprint_has_its_record {F} `{PyFloat F}
    (sprint_data : list (jval (F:=F))) :
  is_ok (_aggregate_sprint_history_data sprint_data) = true →
  ∃ agg,
    _aggregate_sprint_history_data sprint_data = Ok agg ∧
    (∀ one_sprint, one_sprint ∈ sprint_data →
       ∃ k e, sprint_key one_sprint = Ok k ∧
              agg !! k = Some (PerSprint e) ∧
              info_of sprint_data k e ∧ complete e) ∧
    (∀ k x, agg !! k = Some x →
       (k = KStr "asc_order" ∧ ∃ ids, x = AscOrder ids) ∨
       (∃ e, x = PerSprint e ∧ info_of sprint_data k e ∧ complete e)).
Proof.
  intros [agg Hrun]%is_ok_inv. exists agg. split; [done|].
  pose proof Hrun as Hloop. unfold _aggregate_sprint_history_data in Hloop.
  cbv zeta in Hloop.
  apply (sprint_loop_records _ _ _ _ _ []) in Hloop
    as [[Hstems Hhas] Honly].
  - assert (∀ k e, info_of (reverse sprint_data) k e →
                   info_of sprint_data k e) as Hrev.
    { intros k e (s & sprint & Hs & Hrest).
      apply (proj1 (elem_of_reverse _ _)) in Hs.
      exists s, sprint. by split. }
    split.
    + intros s Hs. destruct (Hhas s) as (k & e & Hk & He).
      { rewrite app_nil_l. by apply (proj2 (elem_of_reverse _ _)). }
      destruct (Hstems k e He) as [Hinfo Hcomplete].
      exists k, e. split_and!; try done. by apply Hrev.
    + intros k [ids|e] Hk.
      * left. split; [by apply (Honly k ids)|by exists ids].
      * right. destruct (Hstems k e Hk) as [Hinfo Hcomplete].
        exists e. split_and!; try done. by apply Hrev.
  - exists []. by rewrite lookup_singleton_eq.
  - by intros k ids [<- _]%lookup_singleton_Some.
  - split; [|by intros ? ?%elem_of_nil].
    by intros k e [_ [=]]%lookup_singleton_Some.
Qed.

End SprintShape.
Module SprintShapeRuns.
Import UaSprintDataFetcher SprintNotions QFloat SprintExamples SprintShape.

Lemma asc_order_lists_the_ids_witness :
  is_ok (_aggregate_sprint_history_data three_sprints) = true ∧
  ∃ agg ids,
    _aggregate_sprint_history_data three_sprints = Ok agg ∧
    agg !! KStr "asc_order" = Some (AscOrder ids) ∧
    Forall2 has_id (reverse three_sprints) ids ∧
    length ids = length three_sprints.
Proof.
  assert (is_ok (_aggregate_sprint_history_data three_sprints) = true)
    as H1 by (vm_compute; reflexivity).
  split; [exact H1|].
  exact (asc_order_lists_the_ids three_sprints H1).
Defined.

Lemma every_sprint_has_its_record_witness :
  is_ok (_aggregate_sprint_history_data three_sprints) = true ∧
  ∃ agg,
    _aggregate_sprint_history_data three_sprints = Ok agg ∧
    (∀ one_sprint, one_sprint ∈ three_sprints →
       ∃ k e, sprint_key one_sprint = Ok k ∧
              agg !! k = Some (PerSprint e) ∧
              info_of three_sprints k e ∧ complete e) ∧
    (∀ k x, agg !! k = Some x →
       (k = KStr "asc_order" ∧ ∃ ids, x = AscOrder ids) ∨
       (∃ e, x = PerSprint e ∧ info_of three_sprints k e ∧ complete e)).
Proof.
  assert (is_ok (_aggregate_sprint_history_data three_sprints) = true)
    as H1 by (vm_compute; reflexivity).
  split; [exact H1|].
  exact (every_sprint_has_its_record three_sprints H1).
Defined.

End SprintShapeRuns.
